(** * ayon-backend: enrollment endpoint, reviewable sorting, version resolvers

    A shallow embedding of three request handlers of the backend,

    - [api/events/enroll.py]            ([Module Enroll]),
    - [api/review/sorting.py]           ([Module Sorting]),
    - [ayon_server/graphql/resolvers/versions.py] ([Module Versions]),

    followed by what the specification says of code the handlers only call
    ([Module Spec]), sample requests, and the properties of the handlers
    ([Module EnrollProps], [Module SortingProps], [Module VersionsProps]).

    Python exceptions are values of [Exn]; a handler is a function from the
    world it runs in (store, connection pool, log of collaborator calls) to an
    outcome and the world it leaves behind.  Collaborators whose code lives
    outside the modelled files ([enroll_job], [VersionEntity.load],
    [resolve], ...) are section variables, and so is the match against
    [TOPIC_REGEX]. *)

From Stdlib Require Import ZArith String Ascii List Bool Lia.
From stdpp Require Import base option list gmap strings pretty.

Open Scope Z_scope.

(** ** Exceptions and outcomes *)

(** The exception classes the handlers raise ([ayon_server.exceptions]),
    Python's [ValueError], and [Exception] for whatever else a collaborator
    may raise. *)
Inductive Exn : Type :=
| BadRequestException (detail : string)
| ForbiddenException (detail : string)
| NotFoundException (detail : string)
| ServiceUnavailableException (detail : string)
| ValueError (msg : string)
| Exception (msg : string).

(** Modelled from the spec: the error taxonomy over these classes, whose
    declarations ([ayon_server.exceptions]) are not among the modelled files.
    Client errors are the failures of a malformed or unauthorised request
    (bad request, forbidden, and not found); capacity errors (service
    unavailable) and anything unexpected are not. *)
Definition is_client_error (e : Exn) : bool :=
  match e with
  | BadRequestException _ | ForbiddenException _ | NotFoundException _ => true
  | ServiceUnavailableException _ | ValueError _ | Exception _ => false
  end.

Definition is_bad_request (e : Exn) : bool :=
  match e with BadRequestException _ => true | _ => false end.

Inductive outcome (A : Type) : Type :=
| Return (a : A)
| Raise (e : Exn).
Arguments Return {A} a.
Arguments Raise {A} e.

#[global] Instance outcome_ret : MRet outcome := fun _ a => Return a.
#[global] Instance outcome_bind : MBind outcome := fun _ _ k o =>
  match o with Return a => k a | Raise e => Raise e end.
#[global] Instance outcome_fmap : FMap outcome := fun _ _ f o =>
  match o with Return a => Return (f a) | Raise e => Raise e end.

(** A computation in world [W]: it ends by returning or raising, and in both
    cases leaves a world behind (an exception does not undo earlier effects). *)
Definition M (W A : Type) : Type := W -> outcome A * W.

#[global] Instance M_ret {W} : MRet (M W) := fun _ a w => (Return a, w).
#[global] Instance M_bind {W} : MBind (M W) := fun _ _ k m w =>
  match m w with
  | (Return a, w') => k a w'
  | (Raise e, w') => (Raise e, w')
  end.

Definition raise {W A} (e : Exn) : M W A := fun w => (Raise e, w).
Definition lift {W A} (o : outcome A) : M W A := fun w => (o, w).

(** ** Python strings *)

(** [sub in s] *)
Fixpoint str_contains (sub s : string) : bool :=
  String.prefix sub s ||
  match s with
  | EmptyString => false
  | String _ s' => str_contains sub s'
  end.

(** [s.replace(old, new)] for a non-empty [old]: scan from the left, replace
    each occurrence and resume after it ([skip] counts the characters of the
    occurrence still to be dropped). *)
Fixpoint str_replace_from (old new : string) (skip : nat) (s : string) : string :=
  match s with
  | EmptyString => EmptyString
  | String c s' =>
      match skip with
      | S k => str_replace_from old new k s'
      | O =>
          if String.prefix old s
          then new +:+ str_replace_from old new (String.length old - 1) s'
          else String c (str_replace_from old new O s')
      end
  end.

Definition str_replace (old new s : string) : string :=
  str_replace_from old new O s.

(** [c * n] *)
Fixpoint str_repeat (c : string) (n : nat) : string :=
  match n with
  | O => EmptyString
  | S k => c +:+ str_repeat c k
  end.

Fixpoint str_map (f : ascii -> ascii) (s : string) : string :=
  match s with
  | EmptyString => EmptyString
  | String c s' => String (f c) (str_map f s')
  end.

(** What [replace("*", "%")] does to a single character. *)
Definition star_to_percent (c : ascii) : ascii :=
  if Ascii.eqb c "*" then "%"%char else c.

(** Python values that meet in a comparison of the handlers: [==] between an
    [int] and a [str] is [False], whatever they hold. *)
Inductive pyval : Type :=
| PyInt (n : Z)
| PyStr (s : string)
| PyNone.

Definition py_eq (a b : pyval) : bool :=
  match a, b with
  | PyInt n, PyInt m => Z.eqb n m
  | PyStr s, PyStr t => String.eqb s t
  | PyNone, PyNone => true
  | _, _ => false
  end.

(** * [api/events/enroll.py] *)

Module Enroll.

(** [source_topic: str | list[str]] *)
Inductive str_or_list : Type :=
| Str (s : string)
| StrList (l : list string).

(** The caller identity handed in by the authentication layer. *)
Record CurrentUser : Type := {
  name : string;
  is_service : bool
}.

Inductive ValidationError : Type :=
| MissingField (field : string)
| RegexMismatch (field : string).

Section Endpoint.

(** [re.match(TOPIC_REGEX, value)] succeeds; [TOPIC_REGEX] is a constant of
    [ayon_server.types]. *)
Variable TOPIC_REGEX_match : string -> bool.

(** [ayon_server.sqlfilter.Filter] and [EnrollResponseModel]. *)
Context {Filter : Type}.
Context {EnrollResponseModel : Type}.

(** The event store behind [Postgres]. *)
Context {Store : Type}.

(** ** The request model *)

Record EnrollRequestModel : Type := {
  source_topic : str_or_list;
  target_topic : string;
  sender : string;
  description : option string;
  sequential : bool;
  filter : option Filter;
  max_retries : Z;
  ignore_older_than : Z;
  sloth_mode : bool
}.

(** The fields a request body provides: [None] is a field left out,
    [Some None] an explicit null for the two nullable fields. *)
Record EnrollRequestBody : Type := {
  body_source_topic : option str_or_list;
  body_target_topic : option string;
  body_sender : option string;
  body_description : option (option string);
  body_sequential : option bool;
  body_filter : option (option Filter);
  body_max_retries : option Z;
  body_ignore_older_than : option Z;
  body_sloth_mode : option bool
}.

(** [Field(default, ...)]: the value of a field left out. *)
Definition with_default {A} (d : A) (v : option A) : A :=
  match v with
  | Some a => a
  | None => d
  end.

(** [Field(...)]: no default, a field left out is an error. *)
Definition required {A} (field : string) (v : option A) : list ValidationError :=
  match v with
  | Some _ => []
  | None => [MissingField field]
  end.

(** The errors of a body, field by field in declaration order;
    [target_topic] also carries [regex=TOPIC_REGEX]. *)
Definition field_errors (b : EnrollRequestBody) : list ValidationError :=
  required "source_topic" (body_source_topic b)
  ++ required "target_topic" (body_target_topic b)
  ++ match body_target_topic b with
     | Some t => if TOPIC_REGEX_match t then [] else [RegexMismatch "target_topic"]
     | None => []
     end
  ++ required "sender" (body_sender b).

(** Construction of [EnrollRequestModel] from a body: the model when no field
    is in error, all the errors otherwise. *)
Definition EnrollRequestModel_validate (b : EnrollRequestBody)
  : list ValidationError + EnrollRequestModel :=
  match body_source_topic b, body_target_topic b, body_sender b, field_errors b with
  | Some src, Some tgt, Some snd, [] =>
      inr {| source_topic := src;
             target_topic := tgt;
             sender := snd;
             description := with_default None (body_description b);
             sequential := with_default false (body_sequential b);
             filter := with_default None (body_filter b);
             max_retries := with_default 3 (body_max_retries b);
             ignore_older_than := with_default 3 (body_ignore_older_than b);
             sloth_mode := with_default false (body_sloth_mode b) |}
  | _, _, _, errs => inl errs
  end.

(** ** Collaborators *)

(** The keyword arguments of [enroll_job] as the endpoint passes them. *)
Record EnrollJobArgs : Type := {
  arg_source_topic : str_or_list;
  arg_target_topic : string;
  arg_sender : string;
  arg_user_name : string;
  arg_description : option string;
  arg_sequential : bool;
  arg_filter : option Filter;
  arg_max_retries : Z;
  arg_ignore_older_than : option Z;
  arg_sloth_mode : bool
}.

(** [ayon_server.events.enroll.enroll_job]: runs the claim transaction on the
    store; [None] when there is no candidate. *)
Variable enroll_job :
  EnrollJobArgs -> Store -> outcome (option EnrollResponseModel) * Store.

Inductive Call : Type :=
| GetAvailableConnections
| EnrollJob (args : EnrollJobArgs) (res : outcome (option EnrollResponseModel)).

Definition is_enroll_job (c : Call) : bool :=
  match c with EnrollJob _ _ => true | GetAvailableConnections => false end.

(** The world of a request: the store, the number of free connections of the
    pool, and the collaborator calls made so far, oldest first. *)
Record World : Type := {
  store : Store;
  available_connections : Z;
  calls : list Call
}.

Definition log (c : Call) (w : World) : World :=
  {| store := store w;
     available_connections := available_connections w;
     calls := calls w ++ [c] |}.

(** [Postgres.get_available_connections()] *)
Definition get_available_connections : M World Z :=
  fun w => (Return (available_connections w), log GetAvailableConnections w).

(** [await enroll_job(...)] *)
Definition call_enroll_job (args : EnrollJobArgs)
  : M World (option EnrollResponseModel) :=
  fun w =>
    let '(res, st) := enroll_job args (store w) in
    (res, {| store := st;
             available_connections := available_connections w;
             calls := calls w ++ [EnrollJob args res] |}).

(** ** The endpoint *)

Inductive Response : Type :=
| Job (res : EnrollResponseModel)
| EmptyResponse.

Definition validate_source_topic (value : string) : outcome string :=
  if negb (TOPIC_REGEX_match value)
  then Raise (BadRequestException ("Invalid topic: " +:+ value))
  else Return (str_replace "*" "%" value).

(** [[validate_source_topic(t) for t in topics]]: left to right, the first
    exception ends the comprehension. *)
Fixpoint validate_source_topics (topics : list string) : outcome (list string) :=
  match topics with
  | [] => Return []
  | t :: rest =>
      v ← validate_source_topic t;
      vs ← validate_source_topics rest;
      Return (v :: vs)
  end.

Definition validate_source (src : str_or_list) : outcome str_or_list :=
  match src with
  | Str s => Str <$> validate_source_topic s
  | StrList l => StrList <$> validate_source_topics l
  end.

Definition enroll (payload : EnrollRequestModel) (current_user : CurrentUser)
  : M World Response :=
  if negb (is_service current_user)
  then raise (ForbiddenException "Only services can enroll for jobs")
  else
    source_topic' ← lift (validate_source (source_topic payload));
    if str_contains "*" (target_topic payload)
    then raise (BadRequestException "Target topic must not contain wildcards")
    else
      free ← get_available_connections;
      if (free <? 3)%Z
      then
        free' ← get_available_connections;
        raise (ServiceUnavailableException
                 ("Postgres remaining pool size: " +:+ pretty free'))
      else
        let user_name := name current_user in
        let ignore_older :=
          if py_eq (PyInt (ignore_older_than payload)) (PyStr "0")
          then None
          else Some (ignore_older_than payload) in
        res ← call_enroll_job
                {| arg_source_topic := source_topic';
                   arg_target_topic := target_topic payload;
                   arg_sender := sender payload;
                   arg_user_name := user_name;
                   arg_description := description payload;
                   arg_sequential := sequential payload;
                   arg_filter := filter payload;
                   arg_max_retries := max_retries payload;
                   arg_ignore_older_than := ignore_older;
                   arg_sloth_mode := sloth_mode payload |};
        match res with
        | None => mret EmptyResponse
        | Some r => mret (Job r)
        end.

(** The calls a run added to the log. *)
Definition calls_since (w w' : World) : list Call :=
  drop (length (calls w)) (calls w').

(** What the endpoint makes of the outcome of [enroll_job]. *)
Definition as_response (res : outcome (option EnrollResponseModel))
  : outcome Response :=
  match res with
  | Return None => Return EmptyResponse
  | Return (Some r) => Return (Job r)
  | Raise e => Raise e
  end.

(** The arguments [enroll_job] receives for a request, a caller and the
    validated source topic, with the age cutoff [cutoff]. *)
Definition job_args (payload : EnrollRequestModel) (current_user : CurrentUser)
  (validated : str_or_list) (cutoff : option Z) : EnrollJobArgs :=
  {| arg_source_topic := validated;
     arg_target_topic := target_topic payload;
     arg_sender := sender payload;
     arg_user_name := name current_user;
     arg_description := description payload;
     arg_sequential := sequential payload;
     arg_filter := filter payload;
     arg_max_retries := max_retries payload;
     arg_ignore_older_than := cutoff;
     arg_sloth_mode := sloth_mode payload |}.

(** The five ways a run of [enroll] ends, one per guard and one for the
    dispatch to [enroll_job]. *)
Inductive enroll_run (payload : EnrollRequestModel) (current_user : CurrentUser)
  (w : World) : outcome Response * World -> Prop :=
| run_forbidden :
    is_service current_user = false ->
    enroll_run payload current_user w
      (Raise (ForbiddenException "Only services can enroll for jobs"), w)
| run_invalid_topic e :
    is_service current_user = true ->
    validate_source (source_topic payload) = Raise e ->
    enroll_run payload current_user w (Raise e, w)
| run_wildcard_target validated :
    is_service current_user = true ->
    validate_source (source_topic payload) = Return validated ->
    str_contains "*" (target_topic payload) = true ->
    enroll_run payload current_user w
      (Raise (BadRequestException "Target topic must not contain wildcards"), w)
| run_unavailable validated :
    is_service current_user = true ->
    validate_source (source_topic payload) = Return validated ->
    str_contains "*" (target_topic payload) = false ->
    available_connections w < 3 ->
    enroll_run payload current_user w
      (Raise (ServiceUnavailableException
                ("Postgres remaining pool size: "
                 +:+ pretty (available_connections w))),
       log GetAvailableConnections (log GetAvailableConnections w))
| run_dispatch validated :
    is_service current_user = true ->
    validate_source (source_topic payload) = Return validated ->
    str_contains "*" (target_topic payload) = false ->
    3 <= available_connections w ->
    forall args res,
    args = job_args payload current_user validated (Some (ignore_older_than payload)) ->
    res = enroll_job args (store w) ->
    enroll_run payload current_user w
      (as_response (fst res),
       {| store := snd res;
          available_connections := available_connections w;
          calls := calls w ++ [GetAvailableConnections; EnrollJob args (fst res)] |}).

End Endpoint.

End Enroll.

(** * [api/review/sorting.py] *)

Module Sorting.

(** Values of a [jsonb] object as far as the handler writes them. *)
Inductive json : Type :=
| JNull
| JBool (b : bool)
| JInt (n : Z)
| JStr (s : string).

(** A row of [project_<name>.activity_feed]. *)
Record FeedRow : Type := {
  activity_id : string;
  reference_type : string;
  activity_type : string;
  entity_type : string;
  entity_id : string
}.

(** The two tables of a project schema the handler touches: the feed, and
    [activities] as a map from the row id to its [data] column. *)
Record Project : Type := {
  activity_feed : list FeedRow;
  activities : gmap string (gmap string json)
}.

(** The world of a request: the project schemas by project name, and what
    [print] wrote (a label and the set printed after it). *)
Record World : Type := {
  projects : string -> Project;
  stdout : list (string * gset string)
}.

(** [SortReviewablesRequest] *)
Record SortReviewablesRequest : Type := {
  sort : option (list string)
}.

Section Endpoint.

Context {CurrentUser : Type}.
Context {VersionEntity : Type}.

(** [VersionEntity.load(project_name, version_id)] and
    [version.ensure_update_access(user)], both of [ayon_server.entities]. *)
Variable VersionEntity_load : string -> string -> outcome VersionEntity.
Variable ensure_update_access : VersionEntity -> CurrentUser -> outcome unit.

(** The [SELECT activity_id ... WHERE ...] of the handler. *)
Definition is_version_reviewable (version_id : string) (r : FeedRow) : bool :=
  String.eqb (reference_type r) "origin"
  && String.eqb (activity_type r) "reviewable"
  && String.eqb (entity_type r) "version"
  && String.eqb (entity_id r) version_id.

Definition fetch_reviewables (project_name version_id : string)
  : M World (list string) :=
  fun w =>
    (Return (activity_id <$>
               List.filter (is_version_reviewable version_id)
                 (activity_feed (projects w project_name))), w).

(** [data || jsonb_build_object('reviewableOrder', i)] on the row whose id is
    [activity_id]; an [UPDATE] whose [WHERE] selects no row changes nothing. *)
Definition set_reviewable_order (i : Z) (activity_id : string)
  (acts : gmap string (gmap string json)) : gmap string (gmap string json) :=
  alter (insert "reviewableOrder" (JInt i)) activity_id acts.

Definition update_project (project_name : string) (f : Project -> Project)
  (w : World) : World :=
  {| projects := fun p =>
       if String.eqb p project_name then f (projects w p) else projects w p;
     stdout := stdout w |}.

Definition execute_update (project_name : string) (i : Z) (activity_id : string)
  : M World unit :=
  fun w =>
    (Return tt,
     update_project project_name
       (fun pr => {| activity_feed := activity_feed pr;
                     activities := set_reviewable_order i activity_id (activities pr) |})
       w).

Definition print (label : string) (ids : gset string) : M World unit :=
  fun w => (Return tt, {| projects := projects w;
                          stdout := stdout w ++ [(label, ids)] |}).

(** [for i, activity_id in enumerate(ids): await Postgres.execute(...)],
    counting from [i]. *)
Fixpoint update_orders (project_name : string) (i : Z) (ids : list string)
  : M World unit :=
  match ids with
  | [] => mret tt
  | activity_id :: rest =>
      _ ← execute_update project_name i activity_id;
      update_orders project_name (i + 1) rest
  end.

Definition sort_version_reviewables (user : CurrentUser)
  (project_name version_id : string) (request : SortReviewablesRequest)
  : M World unit :=
  version ← lift (VersionEntity_load project_name version_id);
  _ ← lift (ensure_update_access version user);
  res ← fetch_reviewables project_name version_id;
  match res with
  | [] => raise (NotFoundException "Version not found")
  | _ :: _ =>
      match sort request with
      | None => mret tt
      | Some ids =>
          let valid_ids : gset string := list_to_set res in
          let requested_ids : gset string := list_to_set ids in
          if negb (bool_decide (requested_ids = valid_ids))
          then
            _ ← print "Saved:" valid_ids;
            _ ← print "Requested:" requested_ids;
            raise (BadRequestException "Invalid reviewable ids")
          else update_orders project_name 0 ids
      end
  end.

(** The ids the [SELECT] returns, as a set. *)
Definition stored_reviewable_ids (w : World) (project_name version_id : string)
  : gset string :=
  list_to_set
    (activity_id <$>
       List.filter (is_version_reviewable version_id)
         (activity_feed (projects w project_name))).

(** The [reviewableOrder] of an activity row, when the row exists and has one. *)
Definition reviewable_order (w : World) (project_name activity_id : string)
  : option json :=
  data ← activities (projects w project_name) !! activity_id;
  data !! "reviewableOrder".

End Endpoint.

End Sorting.

(** * [ayon_server/graphql/resolvers/versions.py] *)

Module Versions.

Definition SORT_OPTIONS : gmap string string :=
  list_to_map
    [("version", "versions.version");
     ("status", "versions.status");
     ("createdAt", "versions.created_at");
     ("updatedAt", "versions.updated_at")].

(** What the resolver reads of [root]: the project, the name of the node's
    class and the node's id. *)
Record Root : Type := {
  project_name : string;
  class_name : string;
  root_id : string
}.

(** The keyword arguments of [get_versions]. *)
Record VersionsArgs {HasLinks : Type} : Type := {
  first : option Z;
  after : option string;
  last : option Z;
  before : option string;
  ids : option (list string);
  version : option Z;
  versions : option (list Z);
  statuses : option (list string);
  tags : option (list string);
  subset_ids : option (list string);
  task_ids : option (list string);
  authors : option (list string);
  latestOnly : bool;
  heroOnly : bool;
  heroOrLatestOnly : bool;
  has_links : option HasLinks;
  sort_by : option string
}.
Arguments VersionsArgs HasLinks : clear implicits.

(** The defaults of the signature, with [ids] given. *)
Definition args_with_ids {HasLinks : Type} (i : option (list string))
  : VersionsArgs HasLinks :=
  {| first := None; after := None; last := None; before := None;
     ids := i;
     version := None; versions := None; statuses := None; tags := None;
     subset_ids := None; task_ids := None; authors := None;
     latestOnly := false; heroOnly := false; heroOrLatestOnly := false;
     has_links := None; sort_by := None |}.

(** Truth value of an optional list: neither [None] nor empty. *)
Definition truthy_list {A} (l : option (list A)) : bool :=
  match l with
  | Some (_ :: _) => true
  | _ => false
  end.

(** Truth value of an optional int: neither [None] nor [0]. *)
Definition truthy_int (n : option Z) : bool :=
  match n with
  | Some v => negb (Z.eqb v 0)
  | None => false
  end.

Definition str_join (sep : string) (l : list string) : string :=
  String.concat sep l.

(** [s[n:]] *)
Definition str_from (n : nat) (s : string) : string :=
  String.substring n (String.length s - n) s.

Section Resolvers.

Context {Info : Type}.
Context {HasLinks : Type}.
Context {VersionNode : Type}.

Record VersionEdge : Type := {
  node : VersionNode;
  cursor : option string
}.

Record VersionsConnection : Type := {
  edges : list VersionEdge
}.

(** [SQLTool] of [ayon_server.utils]; [array] is applied to ints and to
    strings, to the latter also with [curly=True]. *)
Variable SQLTool_id_array : list string -> string.
Variable SQLTool_array_int : list Z -> string.
Variable SQLTool_array : bool -> list string -> string.
Variable SQLTool_conditions : list string -> string.

(** [ayon_server.types] *)
Variable validate_name_list : list string -> outcome unit.
Variable validate_status_list : list string -> outcome unit.

(** [ayon_server.graphql.resolvers.common] *)
Variable get_has_links_conds : string -> string -> HasLinks -> list string.
Variable create_folder_access_list : Root -> Info -> outcome (option (list string)).
Variable FieldInfo_has_any : Info -> string -> list string -> bool.
Variable create_pagination :
  list string -> option Z -> option string -> option Z -> option string -> bool ->
  outcome (string * list string * string).

(** [resolve(VersionsConnection, VersionEdge, VersionNode, project_name,
    query, first, last, context=info.context)]: runs the query on the store. *)
Variable resolve :
  string -> string -> option Z -> option Z -> Info -> outcome VersionsConnection.

Inductive Call : Type :=
| GetVersions (root : Root) (args : VersionsArgs HasLinks)
| CreateFolderAccessList (root : Root)
| StoreQuery (query : string).

Definition is_store_query (c : Call) : bool :=
  match c with StoreQuery _ => true | _ => false end.

Definition is_get_versions (c : Call) : bool :=
  match c with GetVersions _ _ => true | _ => false end.

(** The world of a resolver: the collaborator calls so far, oldest first. *)
Record World : Type := {
  calls : list Call
}.

Definition log (c : Call) : M World unit :=
  fun w => (Return tt, {| calls := calls w ++ [c] |}).

Definition call_create_folder_access_list (root : Root) (info : Info)
  : M World (option (list string)) :=
  _ ← log (CreateFolderAccessList root);
  lift (create_folder_access_list root info).

Definition call_resolve (project_name query : string) (first last : option Z)
  (info : Info) : M World VersionsConnection :=
  _ ← log (StoreQuery query);
  lift (resolve project_name query first last info).

Definition when (b : bool) (conds : list string) : list string :=
  if b then conds else [].

Definition get_versions (root : Root) (info : Info) (a : VersionsArgs HasLinks)
  : M World VersionsConnection :=
  _ ← log (GetVersions root a);
  let project_name := project_name root in
  let sql_columns :=
    ["versions.id AS id";
     "versions.version AS version";
     "versions.subset_id AS subset_id";
     "versions.task_id AS task_id";
     "versions.thumbnail_id AS thumbnail_id";
     "versions.author AS author";
     "versions.attrib AS attrib";
     "versions.data AS data";
     "versions.status AS status";
     "versions.tags AS tags";
     "versions.active AS active";
     "versions.created_at AS created_at";
     "versions.updated_at AS updated_at";
     "versions.creation_order AS creation_order"] in
  let sql_conditions : list string := [] in
  let sql_joins : list string := [] in
  (* Empty overrides. Skip querying *)
  if bool_decide (ids a = Some [str_repeat "0" 32])
  then mret {| edges := [] |}
  else
    let sql_conditions := sql_conditions ++
      when (truthy_list (ids a))
        ["id IN " +:+ SQLTool_id_array (default [] (ids a))] in
    let sql_conditions := sql_conditions ++
      when (truthy_int (version a))
        ["version = " +:+ pretty (default 0 (version a))] in
    let sql_conditions := sql_conditions ++
      when (truthy_list (versions a))
        ["version IN " +:+ SQLTool_array_int (default [] (versions a))] in
    _ ← (if truthy_list (authors a)
         then lift (validate_name_list (default [] (authors a)))
         else mret tt);
    let sql_conditions := sql_conditions ++
      when (truthy_list (authors a))
        ["author IN " +:+ SQLTool_array false (default [] (authors a))] in
    _ ← (if truthy_list (statuses a)
         then lift (validate_status_list (default [] (statuses a)))
         else mret tt);
    let sql_conditions := sql_conditions ++
      when (truthy_list (statuses a))
        ["status IN " +:+ SQLTool_array false (default [] (statuses a))] in
    _ ← (if truthy_list (tags a)
         then lift (validate_name_list (default [] (tags a)))
         else mret tt);
    let sql_conditions := sql_conditions ++
      when (truthy_list (tags a))
        ["tags @> " +:+ SQLTool_array true (default [] (tags a))] in
    let sql_conditions := sql_conditions ++
      (if truthy_list (subset_ids a)
       then ["subset_id IN " +:+ SQLTool_id_array (default [] (subset_ids a))]
       else when (String.eqb (class_name root) "SubsetNode")
              ["subset_id = '" +:+ root_id root +:+ "'"]) in
    let sql_conditions := sql_conditions ++
      (if truthy_list (task_ids a)
       then ["task_id IN " +:+ SQLTool_id_array (default [] (task_ids a))]
       else when (String.eqb (class_name root) "TaskNode")
              ["task_id = '" +:+ root_id root +:+ "'"]) in
    let sql_conditions := sql_conditions ++
      (if latestOnly a
       then ["
            versions.id IN (
            SELECT l.ids[array_upper(l.ids, 1)]
            FROM project_" +:+ project_name +:+ ".version_list as l
            )
            "]
       else if heroOnly a
       then ["versions.version < 0"]
       else when (heroOrLatestOnly a) ["
            (versions.version < 0
            OR versions.id IN (
                SELECT l.ids[array_upper(l.ids, 1)]
                FROM project_" +:+ project_name +:+ ".version_list as l
                WHERE l.versions[1] >= 0
            )
            )
            "]) in
    let sql_conditions := sql_conditions ++
      match has_links a with
      | Some hl => get_has_links_conds project_name "versions.id" hl
      | None => []
      end in
    access_list ← call_create_folder_access_list root info;
    let sql_conditions := sql_conditions ++
      match access_list with
      | Some al => ["hierarchy.path like ANY ('{ " +:+ str_join "," al +:+ " }')"]
      | None => []
      end in
    let sql_joins := sql_joins ++
      match access_list with
      | Some _ =>
          ["
                INNER JOIN project_" +:+ project_name +:+ ".subsets AS subsets
                ON subsets.id = versions.subset_id
                ";
           "
                INNER JOIN project_" +:+ project_name +:+ ".hierarchy AS hierarchy
                ON hierarchy.id = subsets.folder_id
                "]
      | None => []
      end in
    (* Pagination *)
    order_by ←
      match sort_by a with
      | None => mret ["versions.creation_order"]
      | Some sb =>
          match SORT_OPTIONS !! sb with
          | Some col => mret [col; "versions.creation_order"]
          | None =>
              if String.prefix "attrib." sb
              then mret ["versions.attrib->>'" +:+ str_from 7 sb +:+ "'";
                         "versions.creation_order"]
              else raise (ValueError ("Invalid sort_by value: " +:+ sb))
          end
      end;
    let need_cursor :=
      FieldInfo_has_any info "versions"
        ["versions.pageInfo.startCursor";
         "versions.pageInfo.endCursor";
         "versions.edges.cursor"] in
    '(pagination, paging_conds, cursor) ←
      lift (create_pagination order_by (first a) (after a) (last a) (before a)
              need_cursor);
    let sql_conditions := sql_conditions ++ paging_conds in
    (* Query *)
    let query := "
        SELECT " +:+ cursor +:+ ", " +:+ str_join ", " sql_columns +:+ "
        FROM project_" +:+ project_name +:+ ".versions AS versions
        " +:+ str_join " " sql_joins +:+ "
        " +:+ SQLTool_conditions sql_conditions +:+ "
        " +:+ pagination +:+ "
    " in
    call_resolve project_name query (first a) (last a) info.

Definition get_version (root : Root) (info : Info) (id : string)
  : M World (option VersionNode) :=
  if String.eqb id ""
  then mret None
  else
    connection ← get_versions root info (args_with_ids (Some [id]));
    match edges connection with
    | [] => mret None
    | e :: _ => mret (Some (node e))
    end.

Definition calls_since (w w' : World) : list Call :=
  drop (length (calls w)) (calls w').

End Resolvers.

End Versions.

(** * What the specification says of code outside the modelled files *)

Module Spec.

Definition is_alnum (c : ascii) : bool :=
  let n := nat_of_ascii c in
  ((48 <=? n) && (n <=? 57) || (65 <=? n) && (n <=? 90)
   || (97 <=? n) && (n <=? 122) || (n =? 95))%nat.

Fixpoint str_forallb (f : ascii -> bool) (s : string) : bool :=
  match s with
  | EmptyString => true
  | String c s' => f c && str_forallb f s'
  end.

(** The segments of a topic: the pieces between its dots. *)
Fixpoint segments_from (cur s : string) : list string :=
  match s with
  | EmptyString => [cur]
  | String c s' =>
      if Ascii.eqb c "."
      then cur :: segments_from EmptyString s'
      else segments_from (cur +:+ String c EmptyString) s'
  end.

Definition segments (s : string) : list string := segments_from EmptyString s.

Definition is_wildcard (seg : string) : bool := String.eqb seg "*".

Definition is_word (seg : string) : bool :=
  negb (String.eqb seg "") && str_forallb is_alnum seg.

(** Modelled from the spec: the topic grammar behind [TOPIC_REGEX], a constant
    of [ayon_server.types]: "alphanumeric segments separated by dots, plus
    one wildcard token".  A segment is a non-empty word of letters, digits
    and the underscore (the handler's own example topic is
    [ftrack.sync_to_ayon]) or the wildcard token, which appears at most once. *)
Definition topic_grammar (s : string) : bool :=
  forallb (fun seg => is_wildcard seg || is_word seg) (segments s)
  && (length (List.filter is_wildcard (segments s)) <=? 1)%nat.

(** Modelled from the spec: the match of an event topic against a source
    pattern in the candidate query of [enroll_job]
    ([ayon_server.events.enroll]): "wildcard expands to any sequence, mapped
    to a SQL LIKE-style pattern".  [%] stands for any sequence of characters
    and, as in SQL, [_] for any single one. *)
Fixpoint sql_like (pattern topic : string) : bool :=
  match pattern with
  | EmptyString => String.eqb topic ""
  | String p pattern' =>
      if Ascii.eqb p "%"
      then
        (fix any_suffix (t : string) : bool :=
           sql_like pattern' t ||
           match t with
           | EmptyString => false
           | String _ t' => any_suffix t'
           end) topic
      else
        match topic with
        | EmptyString => false
        | String c topic' =>
            (Ascii.eqb p "_" || Ascii.eqb p c) && sql_like pattern' topic'
        end
  end.

(** Modelled from the spec: the predicate the filter compiler of
    [ayon_server.sqlfilter] yields for the [filter] of a request: "a
    None/absent filter matches everything"; [compiled] is the predicate of a
    filter that is present. *)
Definition filter_matches {Filter Payload : Type}
  (compiled : Filter -> Payload -> bool) (f : option Filter) (p : Payload) : bool :=
  match f with
  | None => true
  | Some q => compiled q p
  end.

End Spec.

(** * Sample requests and collaborators *)

Module Samples.

Import Enroll.

(** A queue without candidates, and one that always hands out a job; the
    store counts the claims made. *)
Definition idle_queue (a : @EnrollJobArgs unit) (claims : nat)
  : outcome (option string) * nat :=
  (Return None, claims).

Definition busy_queue (a : @EnrollJobArgs unit) (claims : nat)
  : outcome (option string) * nat :=
  (Return (Some "job-1"), S claims).

Definition worker : CurrentUser := {| name := "workerservice01"; is_service := true |}.
Definition artist : CurrentUser := {| name := "artist"; is_service := false |}.

Definition request (source : str_or_list) (target : string) (cutoff : Z)
  : @EnrollRequestModel unit :=
  {| source_topic := source;
     target_topic := target;
     sender := "workerservice01";
     description := None;
     sequential := false;
     filter := None;
     max_retries := 3;
     ignore_older_than := cutoff;
     sloth_mode := false |}.

Definition world_with (free : Z) : @World unit string nat :=
  {| store := O; available_connections := free; calls := [] |}.

(** A body that gives the three required fields and nothing else. *)
Definition minimal_body : @EnrollRequestBody unit :=
  {| body_source_topic := Some (Str "ftrack.update");
     body_target_topic := Some "ftrack.sync_to_ayon";
     body_sender := Some "workerservice01";
     body_description := None;
     body_sequential := None;
     body_filter := None;
     body_max_retries := None;
     body_ignore_older_than := None;
     body_sloth_mode := None |}.

(** [enroll] with the topic grammar of the specification for [TOPIC_REGEX]. *)
Definition sample_enroll
  (queue : @EnrollJobArgs unit -> nat -> outcome (option string) * nat) :=
  Enroll.enroll Spec.topic_grammar queue.

End Samples.

Module SortingSamples.

Import Sorting.

Definition reviewable (activity version : string) : FeedRow :=
  {| activity_id := activity;
     reference_type := "origin";
     activity_type := "reviewable";
     entity_type := "version";
     entity_id := version |}.

(** A project with two reviewables on version [v1] and one on [v2]. *)
Definition demo : Project :=
  {| activity_feed := [reviewable "a" "v1"; reviewable "b" "v1"; reviewable "c" "v2"];
     activities :=
       {[ "a" := {[ "reviewableOrder" := JInt 7 ]};
          "b" := {[ "label" := JStr "turntable" ]};
          "c" := ∅ ]} |}.

Definition world : World :=
  {| projects := fun _ => demo; stdout := [] |}.

(** Collaborators that find every version and let every user update it. *)
Definition load_any (project_name version_id : string) : outcome string :=
  Return version_id.

Definition allow_any (version : string) (user : string) : outcome unit :=
  Return tt.

Definition sample_sort :=
  sort_version_reviewables load_any allow_any.

End SortingSamples.

Module VersionsSamples.

Import Versions.

(** Collaborators of a store that holds one version, [v001], whatever the
    query. *)
Definition id_array (l : list string) : string := "(" +:+ str_join ", " l +:+ ")".
Definition int_array (l : list Z) : string := "(" +:+ str_join ", " (pretty <$> l) +:+ ")".
Definition str_array (curly : bool) (l : list string) : string :=
  if curly then "{" +:+ str_join ", " l +:+ "}" else "(" +:+ str_join ", " l +:+ ")".
Definition conditions (l : list string) : string :=
  match l with
  | [] => ""
  | _ => "WHERE " +:+ str_join " AND " l
  end.
Definition accept (l : list string) : outcome unit := Return tt.
Definition no_links_conds (project_name column : string) (hl : unit) : list string := [].
Definition full_access (root : Root) (info : unit) : outcome (option (list string)) :=
  Return None.
Definition no_cursor (info : unit) (field : string) (paths : list string) : bool := false.
Definition unpaged (order_by : list string) (first : option Z) (after : option string)
  (last : option Z) (before : option string) (need_cursor : bool)
  : outcome (string * list string * string) :=
  Return ("ORDER BY " +:+ str_join ", " order_by, [], "NULL AS cursor").

Definition one_version (project_name query : string) (first last : option Z) (info : unit)
  : outcome (@VersionsConnection string) :=
  Return {| edges := [{| node := "v001"; cursor := None |}] |}.

Definition no_version (project_name query : string) (first last : option Z) (info : unit)
  : outcome (@VersionsConnection string) :=
  Return {| edges := [] |}.

Definition sample_get_versions
  (resolve : string -> string -> option Z -> option Z -> unit ->
             outcome (@VersionsConnection string)) :=
  get_versions (HasLinks:=unit) id_array int_array str_array conditions accept accept
    no_links_conds full_access no_cursor unpaged resolve.

Definition sample_get_version
  (resolve : string -> string -> option Z -> option Z -> unit ->
             outcome (@VersionsConnection string)) :=
  get_version (HasLinks:=unit) id_array int_array str_array conditions accept accept
    no_links_conds full_access no_cursor unpaged resolve.

Definition project_root : Root :=
  {| project_name := "demo"; class_name := "ProjectNode"; root_id := "" |}.

Definition fresh : @World unit := {| calls := [] |}.

End VersionsSamples.

(** * [ayon_server/secrets.py] *)

Module Secrets.

(** The [secrets] table: its rows [(name, value)] in storage order.  The
    [ON CONFLICT (name)] of [set] relies on the unique index on [name];
    [unique_names] states it. *)
Record World : Type := {
  secrets : list (string * string)
}.

Definition names (rows : list (string * string)) : list string := fst <$> rows.

Definition unique_names (w : World) : Prop := NoDup (names (secrets w)).

Definition has_name (key : string) (row : string * string) : bool :=
  String.eqb (fst row) key.

(** [SELECT value FROM secrets WHERE name = $1] *)
Definition select_value (key : string) (rows : list (string * string)) : list string :=
  snd <$> List.filter (has_name key) rows.

(** [INSERT INTO secrets (name, value) VALUES ($1, $2)
     ON CONFLICT (name) DO UPDATE SET value = $2]: the row in conflict takes
    the value, without one the new row is added. *)
Definition upsert (key value : string) (rows : list (string * string))
  : list (string * string) :=
  if existsb (has_name key) rows
  then (fun row => if has_name key row then (fst row, value) else row) <$> rows
  else rows ++ [(key, value)].

(** [DELETE FROM secrets WHERE name = $1] *)
Definition delete_name (key : string) (rows : list (string * string))
  : list (string * string) :=
  List.filter (fun row => negb (has_name key row)) rows.

(** The four statements of the module, with their parameters. *)
Inductive Statement : Type :=
| SelectValue (key : string)
| Upsert (key value : string)
| DeleteName (key : string)
| SelectAll.

Section Store.

(** [Postgres.fetch] and [Postgres.execute] ([ayon_server.lib.postgres]) hand
    a statement to the store, which may refuse it: [refused] is the
    exception the store raises for a statement it does not execute (one with
    a parameter that holds a NUL character, for instance), [None] for a
    statement it executes.  A refused statement reads and writes nothing,
    and the exception goes through the method to its caller. *)
Variable refused : Statement -> option Exn.

(** [Secrets.get] *)
Definition get (key : string) : M World (option string) :=
  fun w =>
    match refused (SelectValue key) with
    | Some e => (Raise e, w)
    | None =>
        let res := select_value key (secrets w) in
        match res with
        | [] => (Return None, w)
        | value :: _ => (Return (Some value), w)
        end
    end.

(** [Secrets.set] *)
Definition set (key value : string) : M World unit :=
  fun w =>
    match refused (Upsert key value) with
    | Some e => (Raise e, w)
    | None => (Return tt, {| secrets := upsert key value (secrets w) |})
    end.

(** [Secrets.delete] *)
Definition delete (key : string) : M World unit :=
  fun w =>
    match refused (DeleteName key) with
    | Some e => (Raise e, w)
    | None => (Return tt, {| secrets := delete_name key (secrets w) |})
    end.

(** [{row["name"]: row["value"] for row in res}]: a later row replaces an
    earlier one of the same name. *)
Definition dict_of_rows (rows : list (string * string)) : gmap string string :=
  fold_left (fun d row => <[fst row := snd row]> d) rows ∅.

(** [Secrets.all] *)
Definition all : M World (gmap string string) :=
  fun w =>
    match refused SelectAll with
    | Some e => (Raise e, w)
    | None => (Return (dict_of_rows (secrets w)), w)
    end.

End Store.

End Secrets.

(** * [openpype/graphql/__init__.py] *)

Module Graphql.

(** The user entity as far as the module reads it. *)
Record UserEntity {Attrib : Type} : Type := {
  user_name : string;
  user_attrib : Attrib
}.
Arguments UserEntity Attrib : clear implicits.

(** The values of the request context: a [DataLoader] around one of the
    load functions, the [folder_from_record] function, the user. *)
Inductive ContextValue {Attrib : Type} : Type :=
| DataLoader (load_fn : string)
| FolderFromRecord
| ContextUser (user : UserEntity Attrib).
Arguments ContextValue Attrib : clear implicits.

Section Query.

Context {Attrib UserAttribType : Type}.

(** [UserAttribType] built from the keyword arguments [user.attrib]. *)
Variable UserAttribType_init : Attrib -> outcome UserAttribType.

Record UserNode : Type := {
  node_name : string;
  node_attrib : UserAttribType
}.

(** [graphql_get_context]: the dict literal, key by key. *)
Definition graphql_get_context (user : UserEntity Attrib)
  : gmap string (ContextValue Attrib) :=
  <["user" := ContextUser user]>
  (<["folder_from_record" := FolderFromRecord]>
  (<["user_loader" := DataLoader "user_loader"]>
  (<["latest_version_loader" := DataLoader "latest_version_loader"]>
  (<["version_loader" := DataLoader "version_loader"]>
  (<["subset_loader" := DataLoader "subset_loader"]>
  (<["folder_loader" := DataLoader "folder_loader"]> ∅)))))).

(** [Query.me]: [info.context["user"]] raises [KeyError] without the key,
    and reading [name] off a value that is no user raises [AttributeError]. *)
Definition me (context : gmap string (ContextValue Attrib)) : outcome UserNode :=
  match context !! "user" with
  | None => Raise (Exception "KeyError: 'user'")
  | Some (ContextUser user) =>
      attrib ← UserAttribType_init (user_attrib user);
      Return {| node_name := user_name user; node_attrib := attrib |}
  | Some _ => Raise (Exception "AttributeError: name")
  end.

End Query.

End Graphql.

(** * [get_versions] in stages *)

(** The pieces of [Versions.get_versions] by name: the conditions it collects
    from its arguments, the validations on the way, the ordering, the query
    text.  [get_versions_staged] puts them together; that it is
    [get_versions] is proved below ([VersionsMore.get_versions_stages]). *)
Module VersionsQuery.

Import Versions.

Section Stages.

Context {Info HasLinks VersionNode : Type}.

Variable SQLTool_id_array : list string -> string.
Variable SQLTool_array_int : list Z -> string.
Variable SQLTool_array : bool -> list string -> string.
Variable SQLTool_conditions : list string -> string.
Variable validate_name_list : list string -> outcome unit.
Variable validate_status_list : list string -> outcome unit.
Variable get_has_links_conds : string -> string -> HasLinks -> list string.
Variable create_folder_access_list : Root -> Info -> outcome (option (list string)).
Variable FieldInfo_has_any : Info -> string -> list string -> bool.
Variable create_pagination :
  list string -> option Z -> option string -> option Z -> option string -> bool ->
  outcome (string * list string * string).
Variable resolve :
  string -> string -> option Z -> option Z -> Info ->
  outcome (@VersionsConnection VersionNode).

Definition sql_columns : list string :=
  ["versions.id AS id";
   "versions.version AS version";
   "versions.subset_id AS subset_id";
   "versions.task_id AS task_id";
   "versions.thumbnail_id AS thumbnail_id";
   "versions.author AS author";
   "versions.attrib AS attrib";
   "versions.data AS data";
   "versions.status AS status";
   "versions.tags AS tags";
   "versions.active AS active";
   "versions.created_at AS created_at";
   "versions.updated_at AS updated_at";
   "versions.creation_order AS creation_order"].

(** The validations of the name and status lists, in source order. *)
Definition validations (a : VersionsArgs HasLinks) : outcome unit :=
  _ ← (if truthy_list (authors a)
       then validate_name_list (default [] (authors a)) else Return tt);
  _ ← (if truthy_list (statuses a)
       then validate_status_list (default [] (statuses a)) else Return tt);
  if truthy_list (tags a)
  then validate_name_list (default [] (tags a)) else Return tt.

(** The conditions collected from the arguments and the root, before the
    access list is asked for. *)
Definition argument_conditions (root : Root) (a : VersionsArgs HasLinks)
  : list string :=
  when (truthy_list (ids a))
    ["id IN " +:+ SQLTool_id_array (default [] (ids a))]
  ++ when (truthy_int (version a))
       ["version = " +:+ pretty (default 0 (version a))]
  ++ when (truthy_list (versions a))
       ["version IN " +:+ SQLTool_array_int (default [] (versions a))]
  ++ when (truthy_list (authors a))
       ["author IN " +:+ SQLTool_array false (default [] (authors a))]
  ++ when (truthy_list (statuses a))
       ["status IN " +:+ SQLTool_array false (default [] (statuses a))]
  ++ when (truthy_list (tags a))
       ["tags @> " +:+ SQLTool_array true (default [] (tags a))]
  ++ (if truthy_list (subset_ids a)
      then ["subset_id IN " +:+ SQLTool_id_array (default [] (subset_ids a))]
      else when (String.eqb (class_name root) "SubsetNode")
             ["subset_id = '" +:+ root_id root +:+ "'"])
  ++ (if truthy_list (task_ids a)
      then ["task_id IN " +:+ SQLTool_id_array (default [] (task_ids a))]
      else when (String.eqb (class_name root) "TaskNode")
             ["task_id = '" +:+ root_id root +:+ "'"])
  ++ (if latestOnly a
      then ["
            versions.id IN (
            SELECT l.ids[array_upper(l.ids, 1)]
            FROM project_" +:+ project_name root +:+ ".version_list as l
            )
            "]
      else if heroOnly a
      then ["versions.version < 0"]
      else when (heroOrLatestOnly a) ["
            (versions.version < 0
            OR versions.id IN (
                SELECT l.ids[array_upper(l.ids, 1)]
                FROM project_" +:+ project_name root +:+ ".version_list as l
                WHERE l.versions[1] >= 0
            )
            )
            "])
  ++ match has_links a with
     | Some hl => get_has_links_conds (project_name root) "versions.id" hl
     | None => []
     end.

Definition access_conditions (access_list : option (list string)) : list string :=
  match access_list with
  | Some al => ["hierarchy.path like ANY ('{ " +:+ str_join "," al +:+ " }')"]
  | None => []
  end.

Definition access_joins (project_name : string) (access_list : option (list string))
  : list string :=
  match access_list with
  | Some _ =>
      ["
                INNER JOIN project_" +:+ project_name +:+ ".subsets AS subsets
                ON subsets.id = versions.subset_id
                ";
       "
                INNER JOIN project_" +:+ project_name +:+ ".hierarchy AS hierarchy
                ON hierarchy.id = subsets.folder_id
                "]
  | None => []
  end.

(** The ordering for [sort_by]; [creation_order] is always the last key. *)
Definition order_by_of (sort_by : option string) : outcome (list string) :=
  match sort_by with
  | None => Return ["versions.creation_order"]
  | Some sb =>
      match SORT_OPTIONS !! sb with
      | Some col => Return [col; "versions.creation_order"]
      | None =>
          if String.prefix "attrib." sb
          then Return ["versions.attrib->>'" +:+ str_from 7 sb +:+ "'";
                       "versions.creation_order"]
          else Raise (ValueError ("Invalid sort_by value: " +:+ sb))
      end
  end.

Definition need_cursor (info : Info) : bool :=
  FieldInfo_has_any info "versions"
    ["versions.pageInfo.startCursor";
     "versions.pageInfo.endCursor";
     "versions.edges.cursor"].

Definition query_text (project_name cursor : string) (sql_joins sql_conditions : list string)
  (pagination : string) : string :=
  "
        SELECT " +:+ cursor +:+ ", " +:+ str_join ", " sql_columns +:+ "
        FROM project_" +:+ project_name +:+ ".versions AS versions
        " +:+ str_join " " sql_joins +:+ "
        " +:+ SQLTool_conditions sql_conditions +:+ "
        " +:+ pagination +:+ "
    ".

Definition logged (w : @World HasLinks) (l : list (@Call HasLinks)) : @World HasLinks :=
  {| calls := calls w ++ l |}.

Definition get_versions_staged (root : Root) (info : Info) (a : VersionsArgs HasLinks)
  (w : @World HasLinks) : outcome (@VersionsConnection VersionNode) * @World HasLinks :=
  if bool_decide (ids a = Some [str_repeat "0" 32])
  then (Return {| edges := [] |}, logged w [GetVersions root a])
  else
    match validations a with
    | Raise e => (Raise e, logged w [GetVersions root a])
    | Return _ =>
    match create_folder_access_list root info with
    | Raise e => (Raise e, logged w [GetVersions root a; CreateFolderAccessList root])
    | Return access_list =>
    match order_by_of (sort_by a) with
    | Raise e => (Raise e, logged w [GetVersions root a; CreateFolderAccessList root])
    | Return order_by =>
    match create_pagination order_by (first a) (after a) (last a) (before a)
            (need_cursor info) with
    | Raise e => (Raise e, logged w [GetVersions root a; CreateFolderAccessList root])
    | Return (pagination, paging_conds, cursor) =>
        let query :=
          query_text (project_name root) cursor
            (access_joins (project_name root) access_list)
            (argument_conditions root a ++ access_conditions access_list ++ paging_conds)
            pagination in
        (resolve (project_name root) query (first a) (last a) info,
         logged w [GetVersions root a; CreateFolderAccessList root; StoreQuery query])
    end end end end.

(** The arguments with every falsy filter left out: an empty list and
    version [0] become [None]. *)
Definition keep_truthy {A} (l : option (list A)) : option (list A) :=
  if truthy_list l then l else None.

Definition without_falsy (a : VersionsArgs HasLinks) : VersionsArgs HasLinks :=
  {| first := first a; after := after a; last := last a; before := before a;
     ids := keep_truthy (ids a);
     version := if truthy_int (version a) then version a else None;
     versions := keep_truthy (versions a);
     statuses := keep_truthy (statuses a);
     tags := keep_truthy (tags a);
     subset_ids := keep_truthy (subset_ids a);
     task_ids := keep_truthy (task_ids a);
     authors := keep_truthy (authors a);
     latestOnly := latestOnly a;
     heroOnly := heroOnly a;
     heroOrLatestOnly := heroOrLatestOnly a;
     has_links := has_links a;
     sort_by := sort_by a |}.

(** The arguments with the two flags that [latestOnly] shadows set to [h]
    and [hl]. *)
Definition with_hero_flags (h hl : bool) (a : VersionsArgs HasLinks)
  : VersionsArgs HasLinks :=
  {| first := first a; after := after a; last := last a; before := before a;
     ids := ids a; version := version a; versions := versions a;
     statuses := statuses a; tags := tags a; subset_ids := subset_ids a;
     task_ids := task_ids a; authors := authors a;
     latestOnly := latestOnly a;
     heroOnly := h;
     heroOrLatestOnly := hl;
     has_links := has_links a;
     sort_by := sort_by a |}.

End Stages.

End VersionsQuery.

(** * Helpers for the further properties *)

Module EnrollAux.

Import Enroll.

(** The patterns of a source topic, one or many. *)
Definition topics_of (src : str_or_list) : list string :=
  match src with
  | Str s => [s]
  | StrList l => l
  end.

(** Whether a source topic is a single string. *)
Definition is_single (src : str_or_list) : bool :=
  match src with
  | Str _ => true
  | StrList _ => false
  end.

End EnrollAux.

Module MoreSamples.

Import Versions.

(** A validator that refuses every list. *)
Definition reject (l : list string) : outcome unit :=
  Raise (BadRequestException "Invalid name").

Definition sample_args (authors : option (list string)) (latest : bool)
  (sort_by : option string) : VersionsArgs unit :=
  {| first := None; after := None; last := None; before := None;
     ids := None; version := Some 0; versions := Some []; statuses := None;
     tags := None; subset_ids := None; task_ids := None; authors := authors;
     latestOnly := latest; heroOnly := false; heroOrLatestOnly := false;
     has_links := None; sort_by := sort_by |}.

(** [get_versions] with a validator for names put in. *)
Definition get_versions_validating (validate_name_list : list string -> outcome unit) :=
  get_versions (HasLinks:=unit) VersionsSamples.id_array VersionsSamples.int_array
    VersionsSamples.str_array VersionsSamples.conditions validate_name_list
    VersionsSamples.accept VersionsSamples.no_links_conds VersionsSamples.full_access
    VersionsSamples.no_cursor VersionsSamples.unpaged VersionsSamples.one_version.

(** A version store that knows no version. *)
Definition load_missing (project_name version_id : string) : outcome string :=
  Raise (NotFoundException "Version not found").

Definition sort_of_missing :=
  Sorting.sort_version_reviewables load_missing SortingSamples.allow_any.

(** A secrets table with two rows. *)
Definition vault : Secrets.World :=
  {| Secrets.secrets := [("ftrack_api_key", "s3cr3t"); ("smtp_password", "hunter2")] |}.

(** A store that refuses a text parameter holding a NUL character, as
    PostgreSQL does, and executes every other statement. *)
Definition has_nul (s : string) : bool :=
  str_contains (String (ascii_of_nat 0) EmptyString) s.

Definition nul_error : Exn :=
  Exception "CharacterNotInRepertoireError: invalid byte sequence for encoding 'UTF8': 0x00".

Definition refuse_nul (st : Secrets.Statement) : option Exn :=
  match st with
  | Secrets.SelectValue key | Secrets.DeleteName key =>
      if has_nul key then Some nul_error else None
  | Secrets.Upsert key value =>
      if has_nul key || has_nul value then Some nul_error else None
  | Secrets.SelectAll => None
  end.

(** A key with a NUL character in it. *)
Definition nul_key : string :=
  String "k" (String (ascii_of_nat 0) (String "y" EmptyString)).

(** A user with its attributes as a list of pairs, and a constructor of the
    attribute type that takes them as they are. *)
Definition artist_entity : Graphql.UserEntity (list (string * string)) :=
  {| Graphql.user_name := "artist"; Graphql.user_attrib := [("fullName", "An Artist")] |}.

Definition attrib_as_given (attrib : list (string * string))
  : outcome (list (string * string)) :=
  Return attrib.

End MoreSamples.

(** * Properties of the enrollment endpoint *)

Module EnrollProps.

Import Enroll.

(** ** Strings *)

Lemma replace_star_map (s : string) :
  str_replace "*" "%" s = str_map star_to_percent s.
Proof.
  unfold str_replace.
  induction s as [|c s IH]; [reflexivity|].
  cbn [str_replace_from str_map String.prefix].
  unfold star_to_percent at 1.
  destruct (ascii_dec "*" c) as [<-|Hne].
  - cbn. rewrite IH. now destruct s.
  - destruct (Ascii.eqb_spec c "*") as [->|_]; [done|].
    cbn. now rewrite IH.
Qed.

Lemma contains_star_cons (c : ascii) (s : string) :
  str_contains "*" (String c s) = Ascii.eqb c "*" || str_contains "*" s.
Proof.
  cbn [str_contains String.prefix].
  destruct (ascii_dec "*" c) as [<-|Hne].
  - now destruct s.
  - now destruct (Ascii.eqb_spec c "*") as [->|_].
Qed.

Lemma map_star_free (s : string) :
  str_contains "*" (str_map star_to_percent s) = false.
Proof.
  induction s as [|c s IH]; [reflexivity|].
  cbn [str_map]. rewrite contains_star_cons, IH.
  unfold star_to_percent.
  destruct (Ascii.eqb_spec c "*") as [->|Hne]; [reflexivity|].
  now destruct (Ascii.eqb_spec c "*").
Qed.

Example replace_wildcard : str_replace "*" "%" "ftrack.*" = "ftrack.%".
Proof. reflexivity. Qed.

Example replace_every_wildcard : str_replace "*" "%" "*.a*b.*" = "%.a%b.%".
Proof. reflexivity. Qed.

Example replace_longer_old : str_replace "ab" "X" "abcabab-a" = "XcXX-a".
Proof. reflexivity. Qed.

Example wildcard_in_target : str_contains "*" "ftrack.*" = true.
Proof. reflexivity. Qed.

Example no_wildcard_in_target : str_contains "*" "ftrack.sync_to_ayon" = false.
Proof. reflexivity. Qed.

(** An [int] is never [==] to a [str], [0] and ["0"] included. *)
Lemma int_never_equals_str (n : Z) (s : string) : py_eq (PyInt n) (PyStr s) = false.
Proof. reflexivity. Qed.

Example grammar_accepts :
  Spec.topic_grammar <$> ["ftrack.*"; "ftrack.update"; "ftrack.sync_to_ayon"; "*"]
  = [true; true; true; true].
Proof. reflexivity. Qed.

Example grammar_rejects :
  Spec.topic_grammar <$> [""; "ftrack update"; "*.*"; "a..b"]
  = [false; false; false; false].
Proof. reflexivity. Qed.

Section Props.

Context {Filter EnrollResponseModel Store : Type}.
Variable TOPIC_REGEX_match : string -> bool.
Variable enroll_job :
  @EnrollJobArgs Filter -> Store -> outcome (option EnrollResponseModel) * Store.

Local Abbreviation enroll := (Enroll.enroll TOPIC_REGEX_match enroll_job).
Local Abbreviation validate_source_topic := (Enroll.validate_source_topic TOPIC_REGEX_match).
Local Abbreviation validate_source_topics := (Enroll.validate_source_topics TOPIC_REGEX_match).
Local Abbreviation validate_source := (Enroll.validate_source TOPIC_REGEX_match).

Implicit Types (p : @EnrollRequestModel Filter) (u : CurrentUser)
  (w : @World Filter EnrollResponseModel Store).

(** ** The endpoint, guard by guard *)

Lemma calls_since_app w (l : list Call) (st : Store) (n : Z) :
  calls_since w {| store := st; available_connections := n; calls := calls w ++ l |} = l.
Proof. unfold calls_since. cbn. apply drop_app_length. Qed.

Lemma calls_since_refl w : calls_since w w = [].
Proof. unfold calls_since. apply drop_all. Qed.

Lemma calls_since_log2 w (c1 c2 : Call) :
  calls_since w (log c1 (log c2 w)) = [c2; c1].
Proof.
  unfold calls_since, log. cbn. rewrite <- app_assoc. apply drop_app_length.
Qed.

Lemma enroll_not_service p u w :
  is_service u = false ->
  enroll p u w = (Raise (ForbiddenException "Only services can enroll for jobs"), w).
Proof. intros Hu. unfold Enroll.enroll. now rewrite Hu. Qed.

Lemma enroll_bad_source p u w e :
  is_service u = true ->
  validate_source (source_topic p) = Raise e ->
  enroll p u w = (Raise e, w).
Proof.
  intros Hu Hs. unfold Enroll.enroll, mbind, M_bind, lift.
  now rewrite Hu, Hs.
Qed.

Lemma enroll_wildcard_target p u w st :
  is_service u = true ->
  validate_source (source_topic p) = Return st ->
  str_contains "*" (target_topic p) = true ->
  enroll p u w =
  (Raise (BadRequestException "Target topic must not contain wildcards"), w).
Proof.
  intros Hu Hs Ht. unfold Enroll.enroll, mbind, M_bind, lift.
  now rewrite Hu, Hs, Ht.
Qed.

Lemma enroll_pool_low p u w st :
  is_service u = true ->
  validate_source (source_topic p) = Return st ->
  str_contains "*" (target_topic p) = false ->
  available_connections w < 3 ->
  enroll p u w =
  (Raise (ServiceUnavailableException
            ("Postgres remaining pool size: " +:+ pretty (available_connections w))),
   log GetAvailableConnections (log GetAvailableConnections w)).
Proof.
  intros Hu Hs Ht Hlow. apply Z.ltb_lt in Hlow.
  unfold Enroll.enroll, mbind, M_bind, lift, get_available_connections, raise.
  rewrite Hu, Hs, Ht. cbn. now rewrite Hlow.
Qed.

Lemma enroll_dispatch p u w st :
  is_service u = true ->
  validate_source (source_topic p) = Return st ->
  str_contains "*" (target_topic p) = false ->
  3 <= available_connections w ->
  let args := job_args p u st (Some (ignore_older_than p)) in
  let res := enroll_job args (store w) in
  enroll p u w =
  (as_response (fst res),
   {| store := snd res;
      available_connections := available_connections w;
      calls := calls w ++ [GetAvailableConnections; EnrollJob args (fst res)] |}).
Proof.
  intros Hu Hs Ht Hok args res. apply Z.ltb_ge in Hok.
  unfold Enroll.enroll, mbind, M_bind, lift, get_available_connections,
    call_enroll_job, raise, mret, M_ret.
  rewrite Hu, Hs, Ht. cbn. rewrite Hok. cbn.
  fold (job_args p u st (Some (ignore_older_than p))). fold args. fold res.
  destruct res as [[[r|]|e] s']; cbn; now rewrite <- app_assoc.
Qed.

(** Every run of [enroll] is one of the five of [enroll_run]. *)
Lemma enroll_runs p u w :
  enroll_run TOPIC_REGEX_match enroll_job p u w (enroll p u w).
Proof.
  destruct (is_service u) eqn:Hu.
  2: { rewrite enroll_not_service by done. now constructor. }
  destruct (validate_source (source_topic p)) as [st|e] eqn:Hs.
  2: { rewrite (enroll_bad_source _ _ _ e) by done. now constructor. }
  destruct (str_contains "*" (target_topic p)) eqn:Ht.
  { rewrite (enroll_wildcard_target _ _ _ st) by done. econstructor; eassumption. }
  destruct (Z.ltb_spec (available_connections w) 3) as [Hlow|Hok].
  - rewrite (enroll_pool_low _ _ _ st) by done. econstructor; eassumption.
  - rewrite (enroll_dispatch _ _ _ st) by done. cbn zeta.
    now apply (run_dispatch TOPIC_REGEX_match enroll_job p u w st).
Qed.

(** ** Validation of source topics *)

Lemma validate_topic_raises (value : string) e :
  validate_source_topic value = Raise e ->
  TOPIC_REGEX_match value = false
  /\ e = BadRequestException ("Invalid topic: " +:+ value).
Proof.
  unfold Enroll.validate_source_topic.
  destruct (TOPIC_REGEX_match value); cbn; [discriminate|].
  intros [= <-]. now split.
Qed.

Lemma validate_topics_ok (l : list string) :
  Forall (fun t => TOPIC_REGEX_match t = true) l ->
  validate_source_topics l = Return (str_map star_to_percent <$> l).
Proof.
  induction 1 as [|t l Ht _ IH]; [reflexivity|].
  cbn [Enroll.validate_source_topics]. unfold Enroll.validate_source_topic.
  rewrite Ht. cbn. rewrite IH. cbn. now rewrite replace_star_map.
Qed.

Lemma validate_topics_first_bad (l1 l2 : list string) (t : string) :
  Forall (fun t => TOPIC_REGEX_match t = true) l1 ->
  TOPIC_REGEX_match t = false ->
  validate_source_topics (l1 ++ t :: l2)
  = Raise (BadRequestException ("Invalid topic: " +:+ t)).
Proof.
  intros Hl1 Ht. induction Hl1 as [|t' l1 Ht' _ IH].
  - cbn. unfold Enroll.validate_source_topic. now rewrite Ht.
  - cbn [app Enroll.validate_source_topics]. unfold Enroll.validate_source_topic at 1.
    rewrite Ht'. cbn. now rewrite IH.
Qed.

Lemma validate_topics_raises (l : list string) e :
  validate_source_topics l = Raise e ->
  exists t, In t l /\ TOPIC_REGEX_match t = false
            /\ e = BadRequestException ("Invalid topic: " +:+ t).
Proof.
  induction l as [|t l IH]; [discriminate|].
  cbn [Enroll.validate_source_topics].
  destruct (validate_source_topic t) as [v|e'] eqn:Hv; cbn.
  - destruct (validate_source_topics l) as [vs|e''] eqn:Hvs; cbn; [discriminate|].
    intros [= <-]. destruct (IH eq_refl) as (t' & Hin & Hm & He).
    exists t'. repeat split; [now right|done|done].
  - intros [= <-]. apply validate_topic_raises in Hv as [Hm He].
    exists t. repeat split; [now left|done|done].
Qed.

Lemma validate_source_raises (src : str_or_list) e :
  validate_source src = Raise e -> is_bad_request e = true.
Proof.
  destruct src as [s|l]; cbn.
  - destruct (validate_source_topic s) eqn:Hv; cbn; [discriminate|].
    intros [= <-]. apply validate_topic_raises in Hv as [_ ->]. reflexivity.
  - destruct (validate_source_topics l) eqn:Hv; cbn; [discriminate|].
    intros [= <-]. apply validate_topics_raises in Hv as (t & _ & _ & ->). reflexivity.
Qed.

(** Case analysis on a run: the goal is split along [enroll_run]. *)
Ltac run_cases p u w :=
  let R := fresh "R" in
  let out := fresh "out" in
  let Hout := fresh "Hout" in
  pose proof (enroll_runs p u w) as R;
  remember (enroll p u w) as out eqn:Hout;
  clear Hout;
  destruct R as [?|? ? ?|? ? ? ?|? ? ? ? ?|? ? ? ? ? args res ? ?].

(** ** Authentication *)

(** C4. A caller without the service capability is refused with [Forbidden]
    before anything else happens: no topic is validated, the pool is not
    queried and [enroll_job] is not called (the world is left as it was).  A
    service caller passes the check: if its run ends in [Forbidden] at all,
    the exception came out of [enroll_job]. *)
Theorem enroll_requires_service p u w :
  (is_service u = false ->
   enroll p u w
   = (Raise (ForbiddenException "Only services can enroll for jobs"), w))
  /\ (is_service u = true ->
      forall d, fst (enroll p u w) = Raise (ForbiddenException d) ->
      exists a, calls_since w (snd (enroll p u w))
                = [GetAvailableConnections;
                   EnrollJob a (Raise (ForbiddenException d))]).
Proof.
  split; [apply enroll_not_service|].
  intros Hu d. run_cases p u w; cbn; intros Hd; try congruence.
  - injection Hd as ->.
    match goal with H : validate_source _ = Raise _ |- _ =>
      apply validate_source_raises in H; discriminate end.
  - rewrite calls_since_app.
    destruct (fst res) as [[r|]|e]; cbn in Hd; try discriminate.
    injection Hd as ->. eauto.
Qed.

(** ** Target topic *)

(** C2, as amended. A request whose target topic contains the wildcard always
    fails with a client error and leaves the world as it was: nothing is
    written, [enroll_job] is not called, the pool is not even queried.  The
    error is [Forbidden] for a caller that is not a service and a bad request
    for a service; with valid source topics it is the bad request about the
    target topic. *)
Theorem enroll_wildcard_target_rejected p u w :
  str_contains "*" (target_topic p) = true ->
  exists e,
    enroll p u w = (Raise e, w)
    /\ is_client_error e = true
    /\ (is_service u = false ->
        e = ForbiddenException "Only services can enroll for jobs")
    /\ (is_service u = true -> is_bad_request e = true)
    /\ (is_service u = true ->
        forall st, validate_source (source_topic p) = Return st ->
        e = BadRequestException "Target topic must not contain wildcards").
Proof.
  intros Ht. run_cases p u w; try congruence.
  - eexists. split; [reflexivity|]. repeat split; congruence.
  - match goal with H : validate_source _ = Raise ?e |- _ =>
      exists e; pose proof (validate_source_raises _ _ H) as Hb; destruct e;
      try discriminate end.
    split; [reflexivity|]. repeat split; congruence.
  - eexists. split; [reflexivity|]. repeat split; congruence.
Qed.

(** ** Backpressure *)

(** C3, as amended. With fewer than three free connections every call fails
    and [enroll_job] is not called, the store is untouched.  The guard is
    the fourth check of the endpoint: for a service caller with valid source
    topics and a wildcard-free target topic the failure is [Unavailable],
    with the pool size in its message; with three or more free connections
    such a call is not rejected but handed to [enroll_job], whose outcome is
    the endpoint's. *)
Theorem enroll_backpressure p u w :
  (available_connections w < 3 ->
   exists e, fst (enroll p u w) = Raise e
             /\ store (snd (enroll p u w)) = store w
             /\ List.filter is_enroll_job (calls_since w (snd (enroll p u w))) = [])
  /\ (is_service u = true ->
      forall st, validate_source (source_topic p) = Return st ->
      str_contains "*" (target_topic p) = false ->
      (available_connections w < 3 ->
       enroll p u w
       = (Raise (ServiceUnavailableException
                   ("Postgres remaining pool size: "
                    +:+ pretty (available_connections w))),
          log GetAvailableConnections (log GetAvailableConnections w)))
      /\ (3 <= available_connections w ->
          exists r,
            calls_since w (snd (enroll p u w))
            = [GetAvailableConnections;
               EnrollJob (job_args p u st (Some (ignore_older_than p))) r]
            /\ fst (enroll p u w) = as_response r)).
Proof.
  split.
  - intros Hlow. run_cases p u w; try lia; eexists; cbn;
      (split; [reflexivity|]); split; try reflexivity;
      try (now rewrite calls_since_refl).
    now rewrite calls_since_log2.
  - intros Hu st Hs Ht. split.
    + now apply enroll_pool_low with st.
    + intros Hok. rewrite (enroll_dispatch p u w st Hu Hs Ht Hok). cbn.
      rewrite calls_since_app. eauto.
Qed.

(** ** No work *)

(** C6. When [enroll_job] was called and found no candidate, the endpoint
    returns [EmptyResponse]: a value, not an exception, and not a job. *)
Theorem enroll_no_work_is_empty_response p u w a :
  In (EnrollJob a (Return None)) (calls_since w (snd (enroll p u w))) ->
  fst (enroll p u w) = Return EmptyResponse
  /\ (forall e, fst (enroll p u w) <> Raise e)
  /\ (forall r, fst (enroll p u w) <> Return (Job r)).
Proof.
  run_cases p u w; cbn; intros Hin.
  1-3: now rewrite calls_since_refl in Hin.
  - rewrite calls_since_log2 in Hin. cbn in Hin. intuition discriminate.
  - rewrite calls_since_app in Hin. cbn in Hin.
    destruct Hin as [Hin|[Hin|[]]]; [discriminate|].
    injection Hin as _ Hres. rewrite Hres. cbn. repeat split; discriminate.
Qed.

(** ** Age cutoff *)

(** C1 (what the code does). The cutoff reaches [enroll_job] as the request
    gives it, never as [None]: the comparison of the [int] field with the
    string ["0"] is false for every value.  In particular a service call
    with [ignore_older_than = 0] that passes the guards hands [Some 0] to
    [enroll_job]. *)
Theorem enroll_cutoff_not_normalized p u w :
  (forall a r, In (EnrollJob a r) (calls_since w (snd (enroll p u w))) ->
               arg_ignore_older_than a = Some (ignore_older_than p))
  /\ (is_service u = true ->
      forall st, validate_source (source_topic p) = Return st ->
      str_contains "*" (target_topic p) = false ->
      3 <= available_connections w ->
      ignore_older_than p = 0 ->
      exists r, calls_since w (snd (enroll p u w))
                = [GetAvailableConnections; EnrollJob (job_args p u st (Some 0)) r]).
Proof.
  split.
  - intros a r. run_cases p u w; cbn; intros Hin.
    1-3: now rewrite calls_since_refl in Hin.
    + rewrite calls_since_log2 in Hin. cbn in Hin. intuition discriminate.
    + rewrite calls_since_app in Hin. cbn in Hin.
      destruct Hin as [Hin|[Hin|[]]]; [discriminate|].
      injection Hin as <- _. now subst args.
  - intros Hu st Hs Ht Hok Hz.
    rewrite (enroll_dispatch p u w st Hu Hs Ht Hok). cbn.
    rewrite calls_since_app, Hz. eauto.
Qed.

(** ** Source topics *)

(** C5, as amended. [validate_source_topic] refuses a pattern that does not
    match the topic grammar with a bad request whose message ends in the
    pattern itself, and returns one that matches with every [*] turned into
    [%] (and no [*] left).  The endpoint applies it to a single string as it
    is and to the elements of a list from the left, where the first
    offending pattern is the one named.  It does so for a service caller
    only: the service check comes first, and a caller that is not a service
    is [Forbidden] whatever the patterns are.  For a service caller the
    refusal is the endpoint's outcome, reached before the target topic, the
    pool or the store are looked at; when all patterns match and the later
    guards pass, the replaced patterns are what [enroll_job] receives.  So
    [ftrack.*], when the grammar admits it, becomes [ftrack.%], which as a
    LIKE pattern matches [ftrack.update] and [ftrack.sync] and not
    [shotgrid.update]. *)
Theorem source_topic_validation :
  (forall value, TOPIC_REGEX_match value = false ->
     validate_source_topic value
     = Raise (BadRequestException ("Invalid topic: " +:+ value))
     /\ validate_source (Str value)
        = Raise (BadRequestException ("Invalid topic: " +:+ value)))
  /\ (forall value, TOPIC_REGEX_match value = true ->
     validate_source_topic value = Return (str_map star_to_percent value)
     /\ validate_source (Str value) = Return (Str (str_map star_to_percent value))
     /\ str_contains "*" (str_map star_to_percent value) = false)
  /\ (forall l, Forall (fun t => TOPIC_REGEX_match t = true) l ->
     validate_source (StrList l) = Return (StrList (str_map star_to_percent <$> l)))
  /\ (forall l1 t l2, Forall (fun t => TOPIC_REGEX_match t = true) l1 ->
     TOPIC_REGEX_match t = false ->
     validate_source (StrList (l1 ++ t :: l2))
     = Raise (BadRequestException ("Invalid topic: " +:+ t)))
  /\ (forall p u w, is_service u = false ->
     enroll p u w
     = (Raise (ForbiddenException "Only services can enroll for jobs"), w))
  /\ (forall p u w e, is_service u = true ->
     validate_source (source_topic p) = Raise e ->
     enroll p u w = (Raise e, w) /\ is_client_error e = true)
  /\ (forall p u w st, is_service u = true ->
     validate_source (source_topic p) = Return st ->
     str_contains "*" (target_topic p) = false ->
     3 <= available_connections w ->
     exists r,
       calls_since w (snd (enroll p u w))
       = [GetAvailableConnections;
          EnrollJob (job_args p u st (Some (ignore_older_than p))) r])
  /\ (TOPIC_REGEX_match "ftrack.*" = true ->
     validate_source_topic "ftrack.*" = Return "ftrack.%"
     /\ validate_source (Str "ftrack.*") = Return (Str "ftrack.%")
     /\ validate_source (StrList ["ftrack.*"]) = Return (StrList ["ftrack.%"])
     /\ Spec.sql_like "ftrack.%" "ftrack.update" = true
     /\ Spec.sql_like "ftrack.%" "ftrack.sync" = true
     /\ Spec.sql_like "ftrack.%" "shotgrid.update" = false).
Proof.
  repeat apply conj.
  - intros value Hm. cbn. unfold Enroll.validate_source_topic. now rewrite Hm.
  - intros value Hm. cbn. unfold Enroll.validate_source_topic. rewrite Hm. cbn.
    rewrite replace_star_map. repeat split. apply map_star_free.
  - intros l Hl. cbn. now rewrite validate_topics_ok.
  - intros l1 t l2 Hl1 Ht. cbn. now rewrite validate_topics_first_bad.
  - intros p u w Hu. now apply enroll_not_service.
  - intros p u w e Hu Hs. split; [now apply enroll_bad_source|].
    apply validate_source_raises in Hs. now destruct e.
  - intros p u w st Hu Hs Ht Hok.
    rewrite (enroll_dispatch p u w st Hu Hs Ht Hok). cbn.
    rewrite calls_since_app. eauto.
  - intros Hm. cbn. unfold Enroll.validate_source_topic. rewrite Hm. now cbn.
Qed.

(** ** Defaults of the request model *)

(** C8. A body that gives the three required fields (with a target topic the
    grammar admits) is accepted, and every optional field it leaves out
    takes its default: [sequential] false, [filter] absent (which matches
    every payload), [max_retries] 3, [ignore_older_than] 3, [sloth_mode]
    false, [description] absent.  [source_topic], [target_topic] and
    [sender] have no default: a body without one of them is refused. *)
Theorem enroll_request_defaults (b : @EnrollRequestBody Filter) :
  (forall src tgt snd,
     body_source_topic b = Some src ->
     body_target_topic b = Some tgt ->
     body_sender b = Some snd ->
     TOPIC_REGEX_match tgt = true ->
     exists m,
       EnrollRequestModel_validate TOPIC_REGEX_match b = inr m
       /\ source_topic m = src /\ target_topic m = tgt /\ sender m = snd
       /\ (body_sequential b = None -> sequential m = false)
       /\ (body_filter b = None ->
           filter m = None
           /\ forall (Payload : Type) (compiled : Filter -> Payload -> bool) payload,
               Spec.filter_matches compiled (filter m) payload = true)
       /\ (body_max_retries b = None -> max_retries m = 3)
       /\ (body_ignore_older_than b = None -> ignore_older_than m = 3)
       /\ (body_sloth_mode b = None -> sloth_mode m = false)
       /\ (body_description b = None -> description m = None))
  /\ (body_source_topic b = None ->
      exists errs, EnrollRequestModel_validate TOPIC_REGEX_match b = inl errs
                   /\ In (MissingField "source_topic") errs)
  /\ (body_target_topic b = None ->
      exists errs, EnrollRequestModel_validate TOPIC_REGEX_match b = inl errs
                   /\ In (MissingField "target_topic") errs)
  /\ (body_sender b = None ->
      exists errs, EnrollRequestModel_validate TOPIC_REGEX_match b = inl errs
                   /\ In (MissingField "sender") errs).
Proof.
  repeat apply conj.
  - intros src tgt snd Hsrc Htgt Hsnd Hm.
    unfold EnrollRequestModel_validate, field_errors.
    rewrite Hsrc, Htgt, Hsnd, Hm. cbn.
    eexists. split; [reflexivity|]. cbn.
    repeat apply conj; try reflexivity; intros Hnone; rewrite Hnone; try reflexivity.
    now split.
  - intros Hsrc. unfold EnrollRequestModel_validate, field_errors.
    rewrite Hsrc. cbn. eexists. split; [reflexivity|]. now left.
  - intros Htgt. unfold EnrollRequestModel_validate, field_errors.
    rewrite Htgt. destruct (body_source_topic b); cbn;
      (eexists; split; [reflexivity|]); cbn; auto.
  - intros Hsnd. unfold EnrollRequestModel_validate, field_errors.
    rewrite Hsnd.
    destruct (body_source_topic b), (body_target_topic b) as [t|]; cbn;
      try destruct (TOPIC_REGEX_match t); cbn;
      (eexists; split; [reflexivity|]); cbn; auto 6.
Qed.

End Props.

(** ** The theorems at sample requests *)

Import Samples.

Lemma enroll_requires_service_witness :
  sample_enroll idle_queue (request (Str "ftrack.update") "ftrack.sync_to_ayon" 3)
    artist (world_with 10)
  = (Raise (ForbiddenException "Only services can enroll for jobs"), world_with 10).
Proof.
  apply (proj1 (enroll_requires_service Spec.topic_grammar idle_queue _ _ _)).
  reflexivity.
Defined.

(** C2, as stated, fails: the wildcard in the target topic of a caller that
    is not a service is never looked at, the failure is [Forbidden] and not a
    bad request. *)
Lemma wildcard_target_of_non_service_is_forbidden :
  str_contains "*" (target_topic (request (Str "ftrack.update") "ftrack.*" 3)) = true
  /\ sample_enroll idle_queue (request (Str "ftrack.update") "ftrack.*" 3)
       artist (world_with 10)
     = (Raise (ForbiddenException "Only services can enroll for jobs"), world_with 10)
  /\ ~ (exists d,
         fst (sample_enroll idle_queue (request (Str "ftrack.update") "ftrack.*" 3)
                artist (world_with 10))
         = Raise (BadRequestException d)).
Proof.
  split; [reflexivity|]. split; [reflexivity|].
  intros [d Hd]. vm_compute in Hd. discriminate.
Qed.

Lemma enroll_wildcard_target_rejected_witness :
  exists e,
    sample_enroll busy_queue (request (Str "ftrack.update") "ftrack.*" 3)
      worker (world_with 10) = (Raise e, world_with 10)
    /\ e = BadRequestException "Target topic must not contain wildcards".
Proof.
  destruct (enroll_wildcard_target_rejected Spec.topic_grammar busy_queue
              (request (Str "ftrack.update") "ftrack.*" 3) worker (world_with 10)
              eq_refl) as (e & Hrun & _ & _ & _ & He).
  exists e. split; [exact Hrun|]. now apply (He eq_refl (Str "ftrack.update")).
Defined.

(** C3, as stated, fails: with two free connections a service call whose
    target topic holds a wildcard fails with the bad request of the
    target-topic check, which comes before the guard, and the pool is not
    queried. *)
Lemma low_pool_wildcard_target_is_bad_request :
  available_connections (world_with 2) < 3
  /\ sample_enroll idle_queue (request (Str "ftrack.update") "ftrack.*" 3)
       worker (world_with 2)
     = (Raise (BadRequestException "Target topic must not contain wildcards"),
        world_with 2)
  /\ ~ (exists d,
         fst (sample_enroll idle_queue (request (Str "ftrack.update") "ftrack.*" 3)
                worker (world_with 2))
         = Raise (ServiceUnavailableException d)).
Proof.
  split; [reflexivity|]. split; [reflexivity|].
  intros [d Hd]. vm_compute in Hd. discriminate.
Qed.

Lemma enroll_backpressure_witness :
  sample_enroll busy_queue (request (Str "ftrack.*") "ftrack.sync_to_ayon" 3)
    worker (world_with 2)
  = (Raise (ServiceUnavailableException "Postgres remaining pool size: 2"),
     log GetAvailableConnections (log GetAvailableConnections (world_with 2))).
Proof.
  apply (proj1 (proj2 (enroll_backpressure Spec.topic_grammar busy_queue
                         (request (Str "ftrack.*") "ftrack.sync_to_ayon" 3)
                         worker (world_with 2))
                  eq_refl (Str "ftrack.%") eq_refl eq_refl)).
  reflexivity.
Defined.

Lemma enroll_no_work_is_empty_response_witness :
  fst (sample_enroll idle_queue (request (Str "ftrack.*") "ftrack.sync_to_ayon" 3)
         worker (world_with 10))
  = Return EmptyResponse.
Proof.
  apply (enroll_no_work_is_empty_response Spec.topic_grammar idle_queue
           (request (Str "ftrack.*") "ftrack.sync_to_ayon" 3) worker (world_with 10)
           (job_args (request (Str "ftrack.*") "ftrack.sync_to_ayon" 3) worker
              (Str "ftrack.%") (Some 3))).
  vm_compute. right. left. reflexivity.
Defined.

(** The failing input of C1: a service call with [ignore_older_than = 0]. *)
Lemma enroll_cutoff_not_normalized_witness :
  exists r,
    calls_since (world_with 10)
      (snd (sample_enroll idle_queue (request (Str "ftrack.update") "ftrack.sync_to_ayon" 0)
              worker (world_with 10)))
    = [GetAvailableConnections;
       EnrollJob (job_args (request (Str "ftrack.update") "ftrack.sync_to_ayon" 0) worker
                    (Str "ftrack.update") (Some 0)) r].
Proof.
  apply (proj2 (enroll_cutoff_not_normalized Spec.topic_grammar idle_queue
                  (request (Str "ftrack.update") "ftrack.sync_to_ayon" 0)
                  worker (world_with 10))
           eq_refl (Str "ftrack.update") eq_refl eq_refl).
  - vm_compute. discriminate.
  - reflexivity.
Defined.

(** C5, as stated, fails: for a caller that is not a service the pattern is
    never validated; the call fails with [Forbidden], whose message does not
    name the offending pattern. *)
Lemma invalid_topic_of_non_service_is_forbidden :
  Spec.topic_grammar "not a topic!" = false
  /\ sample_enroll idle_queue (request (Str "not a topic!") "ftrack.sync_to_ayon" 3)
       artist (world_with 10)
     = (Raise (ForbiddenException "Only services can enroll for jobs"), world_with 10)
  /\ str_contains "not a topic!" "Only services can enroll for jobs" = false
  /\ ~ (exists d,
         fst (sample_enroll idle_queue
                (request (Str "not a topic!") "ftrack.sync_to_ayon" 3)
                artist (world_with 10))
         = Raise (BadRequestException d)).
Proof.
  split; [reflexivity|]. split; [reflexivity|]. split; [reflexivity|].
  intros [d Hd]. vm_compute in Hd. discriminate.
Qed.

Lemma source_topic_validation_witness :
  Enroll.validate_source Spec.topic_grammar (Str "ftrack update")
  = Raise (BadRequestException "Invalid topic: ftrack update")
  /\ sample_enroll idle_queue (request (Str "ftrack update") "ftrack.sync_to_ayon" 3)
       worker (world_with 10)
     = (Raise (BadRequestException "Invalid topic: ftrack update"), world_with 10)
  /\ Enroll.validate_source Spec.topic_grammar (Str "ftrack.*") = Return (Str "ftrack.%")
  /\ Enroll.validate_source Spec.topic_grammar (StrList ["ftrack.*"])
     = Return (StrList ["ftrack.%"])
  /\ Spec.sql_like "ftrack.%" "ftrack.update" = true
  /\ Spec.sql_like "ftrack.%" "ftrack.sync" = true
  /\ Spec.sql_like "ftrack.%" "shotgrid.update" = false.
Proof.
  destruct (source_topic_validation Spec.topic_grammar idle_queue)
    as (Hbad & _ & _ & _ & _ & Hrefused & _ & Hftrack).
  destruct (Hbad "ftrack update" eq_refl) as [_ Hsingle].
  destruct (Hftrack eq_refl) as (_ & Hstr & Hlist & Hlike).
  split; [exact Hsingle|].
  split; [apply (Hrefused _ worker (world_with 10) _ eq_refl); exact Hsingle|].
  split; [exact Hstr|]. split; [exact Hlist|]. exact Hlike.
Defined.

Lemma enroll_request_defaults_witness :
  exists m,
    EnrollRequestModel_validate Spec.topic_grammar minimal_body = inr m
    /\ sequential m = false /\ filter m = None /\ max_retries m = 3
    /\ ignore_older_than m = 3 /\ sloth_mode m = false /\ description m = None.
Proof.
  destruct (proj1 (enroll_request_defaults Spec.topic_grammar minimal_body)
              (Str "ftrack.update") "ftrack.sync_to_ayon" "workerservice01"
              eq_refl eq_refl eq_refl eq_refl)
    as (m & Hm & _ & _ & _ & Hseq & Hf & Hr & Hc & Hs & Hd).
  exists m. split; [exact Hm|].
  repeat split; [apply Hseq|apply Hf|apply Hr|apply Hc|apply Hs|apply Hd]; reflexivity.
Defined.

End EnrollProps.

(** * Properties of the reviewable sorting endpoint *)

Module SortingProps.

Import Sorting.

Section Props.

Context {CurrentUser VersionEntity : Type}.
Variable VersionEntity_load : string -> string -> outcome VersionEntity.
Variable ensure_update_access : VersionEntity -> CurrentUser -> outcome unit.

Local Abbreviation sort_version_reviewables :=
  (Sorting.sort_version_reviewables VersionEntity_load ensure_update_access).

Implicit Types (w : World) (ids : list string) (i : Z).

(** ** The update loop *)

Lemma update_orders_cons pn i id ids w :
  update_orders pn i (id :: ids) w
  = update_orders pn (i + 1) ids (snd (execute_update pn i id w)).
Proof. reflexivity. Qed.

Lemma execute_update_project pn i id w :
  projects (snd (execute_update pn i id w)) pn
  = {| activity_feed := activity_feed (projects w pn);
       activities := set_reviewable_order i id (activities (projects w pn)) |}.
Proof. cbn. now rewrite String.eqb_refl. Qed.

Lemma execute_update_other pn q i id w :
  q <> pn -> projects (snd (execute_update pn i id w)) q = projects w q.
Proof. intros Hq. cbn. now destruct (String.eqb_spec q pn). Qed.

Lemma update_orders_returns pn i ids w :
  fst (update_orders pn i ids w) = Return tt
  /\ stdout (snd (update_orders pn i ids w)) = stdout w.
Proof.
  revert i w. induction ids as [|id ids IH]; intros i w; [done|].
  rewrite update_orders_cons.
  destruct (IH (i + 1) (snd (execute_update pn i id w))) as [-> ->]. done.
Qed.

Lemma update_orders_other pn q i ids w :
  q <> pn -> projects (snd (update_orders pn i ids w)) q = projects w q.
Proof.
  intros Hq. revert i w. induction ids as [|id ids IH]; intros i w; [done|].
  rewrite update_orders_cons, IH. now apply execute_update_other.
Qed.

Lemma update_orders_feed pn i ids w :
  activity_feed (projects (snd (update_orders pn i ids w)) pn)
  = activity_feed (projects w pn).
Proof.
  revert i w. induction ids as [|id ids IH]; intros i w; [done|].
  now rewrite update_orders_cons, IH, execute_update_project.
Qed.

(** A row that is not listed keeps its data. *)
Lemma update_orders_unlisted pn i ids w (id : string) :
  id ∉ ids ->
  activities (projects (snd (update_orders pn i ids w)) pn) !! id
  = activities (projects w pn) !! id.
Proof.
  revert i w. induction ids as [|id0 ids IH]; intros i w Hid; [done|].
  apply not_elem_of_cons in Hid as [Hne Hid].
  rewrite update_orders_cons, IH, execute_update_project by done. cbn.
  unfold set_reviewable_order. now rewrite lookup_alter_ne.
Qed.

(** A listed row ends with the index of its last occurrence, counted from
    [i]; the rest of its data is kept. *)
Lemma update_orders_last pn i ids w (k : nat) (id : string) :
  ids !! k = Some id ->
  (forall j, (k < j)%nat -> ids !! j <> Some id) ->
  activities (projects (snd (update_orders pn i ids w)) pn) !! id
  = insert "reviewableOrder" (JInt (i + Z.of_nat k))
      <$> activities (projects w pn) !! id.
Proof.
  revert i w k. induction ids as [|id0 ids IH]; intros i w k Hk Hlast; [done|].
  rewrite update_orders_cons.
  destruct k as [|k]; cbn in Hk.
  - injection Hk as ->.
    rewrite update_orders_unlisted, execute_update_project.
    + cbn. unfold set_reviewable_order. rewrite lookup_alter_eq.
      now rewrite Z.add_0_r.
    + intros Hin. apply list_elem_of_lookup in Hin as [j Hj].
      apply (Hlast (S j)); [lia|exact Hj].
  - rewrite (IH (i + 1) _ k Hk).
    2: { intros j Hj. apply (Hlast (S j)). lia. }
    rewrite execute_update_project. cbn. unfold set_reviewable_order.
    replace (i + 1 + Z.of_nat k) with (i + Z.of_nat (S k)) by lia.
    destruct (decide (id0 = id)) as [->|Hne].
    + rewrite lookup_alter_eq. destruct (activities (projects w pn) !! id); cbn; [|done].
      now rewrite insert_insert_eq.
    + now rewrite lookup_alter_ne.
Qed.

(** ** The endpoint *)

Lemma requested_none_stored (ids : list string) :
  list_to_set ids = (∅ : gset string) -> ids = [].
Proof.
  destruct ids as [|id ids]; [done|].
  intros H. assert (id ∈ (∅ : gset string)) as Hin; [|set_solver].
  rewrite <- H. set_solver.
Qed.

(** The endpoint once the version is loaded and the user may update it. *)
Lemma sort_after_access user pn vid request w v :
  VersionEntity_load pn vid = Return v ->
  ensure_update_access v user = Return tt ->
  sort_version_reviewables user pn vid request w
  = match activity_id <$> List.filter (is_version_reviewable vid)
                            (activity_feed (projects w pn)) with
    | [] => (Raise (NotFoundException "Version not found"), w)
    | _ :: _ =>
        match sort request with
        | None => (Return tt, w)
        | Some ids =>
            if bool_decide (list_to_set ids = stored_reviewable_ids w pn vid)
            then update_orders pn 0 ids w
            else (Raise (BadRequestException "Invalid reviewable ids"),
                  {| projects := projects w;
                     stdout := stdout w
                               ++ [("Saved:", stored_reviewable_ids w pn vid);
                                   ("Requested:", list_to_set ids)] |})
        end
    end.
Proof.
  intros Hload Haccess.
  unfold Sorting.sort_version_reviewables, mbind, M_bind, lift, fetch_reviewables,
    stored_reviewable_ids.
  rewrite Hload, Haccess.
  destruct (activity_id <$> _) as [|r res]; [done|].
  destruct (sort request) as [ids|]; [|done].
  destruct (bool_decide _); cbn; [done|].
  now rewrite <- app_assoc.
Qed.

(** C9. For a request with a sort list: when the ids of the list, as a set,
    differ from the stored reviewable ids of the version, the call fails and
    no project table is changed; with the version loaded and update access
    granted the failure is a client error.  When the two sets are equal (the
    list may repeat ids) the call succeeds and every listed activity row
    ends with [reviewableOrder] set to the index of its last occurrence in
    the list, the rest of its data and all unlisted rows staying as they
    were. *)
Theorem sort_version_reviewables_checks_ids user pn vid ids w :
  let out := sort_version_reviewables user pn vid {| sort := Some ids |} w in
  (list_to_set ids <> stored_reviewable_ids w pn vid ->
   (exists e, fst out = Raise e)
   /\ projects (snd out) = projects w
   /\ (forall v, VersionEntity_load pn vid = Return v ->
        ensure_update_access v user = Return tt ->
        exists e, fst out = Raise e /\ is_client_error e = true))
  /\ (list_to_set ids = stored_reviewable_ids w pn vid ->
      forall v, VersionEntity_load pn vid = Return v ->
      ensure_update_access v user = Return tt ->
      fst out = match ids with
                | [] => Raise (NotFoundException "Version not found")
                | _ :: _ => Return tt
                end
      /\ (forall (k : nat) (id : string),
            ids !! k = Some id ->
            (forall j, (k < j)%nat -> ids !! j <> Some id) ->
            activities (projects (snd out) pn) !! id
            = insert "reviewableOrder" (JInt (Z.of_nat k))
                <$> activities (projects w pn) !! id
            /\ (is_Some (activities (projects w pn) !! id) ->
                reviewable_order (snd out) pn id = Some (JInt (Z.of_nat k))))
      /\ (forall id : string, id ∉ ids ->
            activities (projects (snd out) pn) !! id
            = activities (projects w pn) !! id)
      /\ (forall q, q <> pn -> projects (snd out) q = projects w q)
      /\ activity_feed (projects (snd out) pn) = activity_feed (projects w pn)).
Proof.
  intros out. split.
  - intros Hne. subst out.
    destruct (VersionEntity_load pn vid) as [v|e] eqn:Hload.
    2: { unfold Sorting.sort_version_reviewables, mbind, M_bind, lift.
         rewrite Hload. cbn. repeat split; [eauto|discriminate]. }
    destruct (ensure_update_access v user) as [[]|e] eqn:Haccess.
    2: { unfold Sorting.sort_version_reviewables, mbind, M_bind, lift.
         rewrite Hload, Haccess. cbn.
         repeat split; [eauto|]. intros v' [= <-]. congruence. }
    rewrite (sort_after_access _ _ _ _ _ v Hload Haccess). cbn [sort].
    rewrite bool_decide_eq_false_2 by done.
    destruct (activity_id <$> _); cbn; repeat split; eauto.
  - intros Heq v Hload Haccess. subst out.
    rewrite (sort_after_access _ _ _ _ _ v Hload Haccess). cbn [sort].
    rewrite bool_decide_eq_true_2 by done.
    unfold stored_reviewable_ids in Heq.
    destruct (activity_id <$> _) as [|r res] eqn:Hres.
    + apply requested_none_stored in Heq as ->. cbn.
      repeat split; try done.
    + destruct ids as [|id0 ids]; [symmetry in Heq; now apply requested_none_stored in Heq|].
      split; [apply update_orders_returns|].
      split; [|split; [|split]].
      * intros k id Hk Hlast.
        pose proof (update_orders_last pn 0 (id0 :: ids) w k id Hk Hlast) as Hset.
        rewrite Z.add_0_l in Hset. split; [exact Hset|].
        intros [data Hdata]. unfold reviewable_order.
        rewrite Hset, Hdata. cbn. apply lookup_insert_eq.
      * intros id Hid. now apply update_orders_unlisted.
      * intros q Hq. now apply update_orders_other.
      * apply update_orders_feed.
Qed.

End Props.

(** ** The theorem at a sample project *)

Import SortingSamples.

Lemma sort_version_reviewables_checks_ids_witness :
  fst (sample_sort "reviewer" "demo" "v1" {| sort := Some ["a"; "b"; "a"] |} world)
  = Return tt
  /\ reviewable_order
       (snd (sample_sort "reviewer" "demo" "v1" {| sort := Some ["a"; "b"; "a"] |} world))
       "demo" "a" = Some (JInt 2)
  /\ reviewable_order
       (snd (sample_sort "reviewer" "demo" "v1" {| sort := Some ["a"; "b"; "a"] |} world))
       "demo" "b" = Some (JInt 1).
Proof.
  assert (list_to_set ["a"; "b"; "a"] = stored_reviewable_ids world "demo" "v1") as Heq
    by (apply (bool_decide_unpack _); vm_compute; exact I).
  destruct (proj2 (sort_version_reviewables_checks_ids load_any allow_any
                     "reviewer" "demo" "v1" ["a"; "b"; "a"] world)
              Heq "v1" eq_refl eq_refl) as (Hret & Hlisted & _).
  split; [exact Hret|]. split.
  - apply (Hlisted 2%nat "a"); [reflexivity| |vm_compute; eauto].
    intros [|[|[|j]]] Hj; (lia || discriminate).
  - apply (Hlisted 1%nat "b"); [reflexivity| |vm_compute; eauto].
    intros [|[|[|j]]] Hj; (lia || discriminate).
Defined.

End SortingProps.

(** * Properties of the version resolvers *)

Module VersionsProps.

Import Versions.

Section Props.

Context {Info HasLinks VersionNode : Type}.
Variable SQLTool_id_array : list string -> string.
Variable SQLTool_array_int : list Z -> string.
Variable SQLTool_array : bool -> list string -> string.
Variable SQLTool_conditions : list string -> string.
Variable validate_name_list : list string -> outcome unit.
Variable validate_status_list : list string -> outcome unit.
Variable get_has_links_conds : string -> string -> HasLinks -> list string.
Variable create_folder_access_list : Root -> Info -> outcome (option (list string)).
Variable FieldInfo_has_any : Info -> string -> list string -> bool.
Variable create_pagination :
  list string -> option Z -> option string -> option Z -> option string -> bool ->
  outcome (string * list string * string).
Variable resolve :
  string -> string -> option Z -> option Z -> Info ->
  outcome (@VersionsConnection VersionNode).

Local Abbreviation get_versions :=
  (Versions.get_versions SQLTool_id_array SQLTool_array_int SQLTool_array
     SQLTool_conditions validate_name_list validate_status_list
     get_has_links_conds create_folder_access_list FieldInfo_has_any
     create_pagination resolve).

Local Abbreviation get_version :=
  (Versions.get_version SQLTool_id_array SQLTool_array_int SQLTool_array
     SQLTool_conditions validate_name_list validate_status_list
     get_has_links_conds create_folder_access_list FieldInfo_has_any
     create_pagination resolve).

Implicit Types (w : @World HasLinks) (a : VersionsArgs HasLinks).

Lemma calls_since_logged w (l : list (@Call HasLinks)) :
  calls_since w {| calls := calls w ++ l |} = l.
Proof. unfold calls_since. cbn. apply drop_app_length. Qed.

Lemma calls_since_same w : calls_since w w = [].
Proof. unfold calls_since. apply drop_all. Qed.

(** The empty override: nothing but the entry into [get_versions] happens. *)
Lemma get_versions_empty_override root info a w :
  ids a = Some [str_repeat "0" 32] ->
  get_versions root info a w
  = (Return {| edges := [] |}, {| calls := calls w ++ [GetVersions root a] |}).
Proof.
  intros Hids. unfold Versions.get_versions, mbind, M_bind, log.
  rewrite bool_decide_eq_true_2 by exact Hids. reflexivity.
Qed.

Lemma get_version_nonempty root info (id : string) w :
  id <> "" ->
  get_version root info id w
  = match get_versions root info (args_with_ids (Some [id])) w with
    | (Return c, w') => (Return (node <$> head (edges c)), w')
    | (Raise e, w') => (Raise e, w')
    end.
Proof.
  intros Hid. unfold Versions.get_version.
  destruct (String.eqb_spec id "") as [->|_]; [done|].
  unfold mbind at 1, M_bind at 1.
  destruct (Versions.get_versions _ _ _ _ _ _ _ _ _ _ _ root info _ w) as [[c|e] w'];
    [|reflexivity].
  now destruct (edges c).
Qed.

(** C10. [get_versions] with [ids] the single id of 32 zeros returns the
    empty connection and runs no store query (nor any other collaborator).
    [get_version] with the empty id returns [None] without entering
    [get_versions]; with any other id it calls [get_versions] for that id
    and returns the node of the first edge, or [None] when there is no edge
    (and raises what [get_versions] raises). *)
Theorem version_resolvers_short_cuts root info w :
  (forall a, ids a = Some [str_repeat "0" 32] ->
     fst (get_versions root info a w) = Return {| edges := [] |}
     /\ calls_since w (snd (get_versions root info a w)) = [GetVersions root a]
     /\ List.filter is_store_query (calls_since w (snd (get_versions root info a w))) = [])
  /\ (get_version root info "" w = (Return None, w)
      /\ List.filter is_get_versions (calls_since w (snd (get_version root info "" w))) = [])
  /\ (forall (id : string) c w', id <> "" ->
        get_versions root info (args_with_ids (Some [id])) w = (Return c, w') ->
        (edges c = [] -> get_version root info id w = (Return None, w'))
        /\ (forall e rest, edges c = e :: rest ->
              get_version root info id w = (Return (Some (node e)), w')))
  /\ (forall (id : string) e w', id <> "" ->
        get_versions root info (args_with_ids (Some [id])) w = (Raise e, w') ->
        get_version root info id w = (Raise e, w')).
Proof.
  repeat apply conj.
  - intros a Hids. rewrite get_versions_empty_override by done. cbn.
    rewrite calls_since_logged. now repeat split.
  - reflexivity.
  - cbn. now rewrite calls_since_same.
  - intros id c w' Hid Hrun. rewrite get_version_nonempty, Hrun by done.
    split; [intros ->; reflexivity|]. intros e rest ->. reflexivity.
  - intros id e w' Hid Hrun. now rewrite get_version_nonempty, Hrun.
Qed.

End Props.

(** ** The theorem at a sample store *)

Import VersionsSamples.

Lemma version_resolvers_short_cuts_witness :
  fst (sample_get_versions one_version project_root tt
         (args_with_ids (Some ["00000000000000000000000000000000"])) fresh)
  = Return {| edges := [] |}
  /\ fst (sample_get_version one_version project_root tt "4f2c" fresh)
     = Return (Some "v001")
  /\ fst (sample_get_version no_version project_root tt "4f2c" fresh)
     = Return None.
Proof.
  split; [|split].
  - apply (proj1 (version_resolvers_short_cuts id_array int_array str_array conditions
                    accept accept no_links_conds full_access no_cursor unpaged
                    one_version project_root tt fresh)).
    reflexivity.
  - pose proof (proj1 (proj2 (proj2 (version_resolvers_short_cuts
                    id_array int_array str_array conditions
                    accept accept no_links_conds full_access no_cursor unpaged
                    one_version project_root tt fresh)))) as H.
    specialize (H "4f2c" _ _ ltac:(discriminate) eq_refl).
    destruct H as [_ H]. unfold sample_get_version. now rewrite (H _ _ eq_refl).
  - pose proof (proj1 (proj2 (proj2 (version_resolvers_short_cuts
                    id_array int_array str_array conditions
                    accept accept no_links_conds full_access no_cursor unpaged
                    no_version project_root tt fresh)))) as H.
    specialize (H "4f2c" _ _ ltac:(discriminate) eq_refl).
    destruct H as [H _]. unfold sample_get_version. now rewrite (H eq_refl).
Defined.

End VersionsProps.

(** * More on the version resolvers *)

Module VersionsMore.

Import Versions VersionsQuery.

Section Props.

Context {Info HasLinks VersionNode : Type}.
Variable SQLTool_id_array : list string -> string.
Variable SQLTool_array_int : list Z -> string.
Variable SQLTool_array : bool -> list string -> string.
Variable SQLTool_conditions : list string -> string.
Variable validate_name_list : list string -> outcome unit.
Variable validate_status_list : list string -> outcome unit.
Variable get_has_links_conds : string -> string -> HasLinks -> list string.
Variable create_folder_access_list : Root -> Info -> outcome (option (list string)).
Variable FieldInfo_has_any : Info -> string -> list string -> bool.
Variable create_pagination :
  list string -> option Z -> option string -> option Z -> option string -> bool ->
  outcome (string * list string * string).
Variable resolve :
  string -> string -> option Z -> option Z -> Info ->
  outcome (@VersionsConnection VersionNode).

Local Abbreviation get_versions :=
  (Versions.get_versions SQLTool_id_array SQLTool_array_int SQLTool_array
     SQLTool_conditions validate_name_list validate_status_list
     get_has_links_conds create_folder_access_list FieldInfo_has_any
     create_pagination resolve).

Local Abbreviation get_version :=
  (Versions.get_version SQLTool_id_array SQLTool_array_int SQLTool_array
     SQLTool_conditions validate_name_list validate_status_list
     get_has_links_conds create_folder_access_list FieldInfo_has_any
     create_pagination resolve).

Local Abbreviation get_versions_staged :=
  (VersionsQuery.get_versions_staged SQLTool_id_array SQLTool_array_int SQLTool_array
     SQLTool_conditions validate_name_list validate_status_list
     get_has_links_conds create_folder_access_list FieldInfo_has_any
     create_pagination resolve).

Local Abbreviation validations :=
  (VersionsQuery.validations (HasLinks:=HasLinks) validate_name_list validate_status_list).

Local Abbreviation argument_conditions :=
  (VersionsQuery.argument_conditions SQLTool_id_array SQLTool_array_int SQLTool_array
     get_has_links_conds).

Implicit Types (w : @World HasLinks) (a : VersionsArgs HasLinks).

(** A validation on the way: it either lets the rest run in the same world
    or ends the computation there. *)
Lemma guard_step {W B} (b : bool) (v : outcome unit) (k : M W B) (w0 : W) :
  ((if b then lift v else mret tt) ≫= λ _, k) w0
  = match (if b then v else Return tt) with
    | Return _ => k w0
    | Raise e => (Raise e, w0)
    end.
Proof. destruct b; [destruct v as [[]|e]|]; reflexivity. Qed.

(** [get_versions] is its staged form. *)
Lemma get_versions_stages root info a w :
  get_versions root info a w = get_versions_staged root info a w.
Proof.
  unfold Versions.get_versions, VersionsQuery.get_versions_staged,
    VersionsQuery.validations, logged.
  unfold mbind at 1, M_bind at 1, log at 1.
  case_bool_decide; [reflexivity|].
  cbv zeta.
  rewrite guard_step.
  unfold mbind at 4 5, outcome_bind.
  destruct (if truthy_list (authors a) then _ else _) as [[]|?]; [|reflexivity].
  rewrite guard_step.
  destruct (if truthy_list (statuses a) then _ else _) as [[]|?]; [|reflexivity].
  rewrite guard_step.
  destruct (if truthy_list (tags a) then _ else _) as [[]|?]; [|reflexivity].
  unfold call_create_folder_access_list, call_resolve.
  unfold mbind, M_bind, lift, mret, M_ret, raise, log.
  unfold order_by_of, VersionsQuery.need_cursor, query_text,
    VersionsQuery.argument_conditions, access_conditions, access_joins,
    sql_columns.
  cbv beta.
  destruct (create_folder_access_list root info) as [al|?];
    [|cbn [calls]; rewrite <- ?app_assoc; reflexivity].
  destruct (sort_by a) as [sb|];
    [destruct (SORT_OPTIONS !! sb);
     [|destruct (String.prefix "attrib." sb);
       [|cbn [calls]; rewrite <- ?app_assoc; reflexivity]]|].
  all: match goal with
       | |- context [create_pagination ?o ?f ?af ?l ?b ?n] =>
           destruct (create_pagination o f af l b n) as [[[pg pc] cur]|?];
           [|cbn [calls]; rewrite <- ?app_assoc; reflexivity]
       end.
  all: cbn [calls]; rewrite <- !app_assoc; cbn [app]; reflexivity.
Qed.

Lemma calls_since_logged' w (l : list (@Call HasLinks)) :
  calls_since w (logged w l) = l.
Proof. apply VersionsProps.calls_since_logged. Qed.

(** Two argument records that agree on what the stages read give the same
    outcome and, after the entry into [get_versions], the same calls. *)
Lemma staged_congruence root info a a' w :
  bool_decide (ids a = Some [str_repeat "0" 32])
  = bool_decide (ids a' = Some [str_repeat "0" 32]) ->
  validations a = validations a' ->
  argument_conditions root a = argument_conditions root a' ->
  sort_by a = sort_by a' ->
  (first a, after a, last a, before a) = (first a', after a', last a', before a') ->
  fst (get_versions root info a w) = fst (get_versions root info a' w)
  /\ tail (calls_since w (snd (get_versions root info a w)))
     = tail (calls_since w (snd (get_versions root info a' w))).
Proof.
  intros Hov Hval Hcond Hsort [= Hf Haf Hl Hb].
  rewrite !get_versions_stages. unfold VersionsQuery.get_versions_staged.
  rewrite Hov, Hval, Hcond, Hsort, Hf, Haf, Hl, Hb.
  destruct (bool_decide (ids a' = _)); [cbn [fst snd]; now rewrite !calls_since_logged'|].
  destruct (VersionsQuery.validations _ _ a'); [|cbn [fst snd]; now rewrite !calls_since_logged'].
  destruct (create_folder_access_list root info); [|cbn [fst snd]; now rewrite !calls_since_logged'].
  destruct (order_by_of (sort_by a')); [|cbn [fst snd]; now rewrite !calls_since_logged'].
  destruct (create_pagination _ _ _ _ _ _) as [[[pg pc] cur]|];
    cbn [fst snd]; now rewrite !calls_since_logged'.
Qed.

(** ** Falsy filters *)

Lemma keep_truthy_override (l : option (list string)) :
  bool_decide (keep_truthy l = Some [str_repeat "0" 32])
  = bool_decide (l = Some [str_repeat "0" 32]).
Proof.
  destruct l as [[|x l]|]; reflexivity.
Qed.

Lemma conditions_without_falsy root a :
  argument_conditions root (without_falsy a) = argument_conditions root a.
Proof.
  unfold VersionsQuery.argument_conditions. cbn [without_falsy ids version versions
    authors statuses tags subset_ids task_ids latestOnly heroOnly heroOrLatestOnly
    has_links].
  apply (f_equal2 app); [now destruct (ids a) as [[|? ?]|]|].
  apply (f_equal2 app).
  { unfold truthy_int. destruct (version a) as [v|]; [|reflexivity].
    now destruct (Z.eqb v 0) eqn:Hv; cbn; rewrite ?Hv. }
  apply (f_equal2 app); [now destruct (versions a) as [[|? ?]|]|].
  apply (f_equal2 app); [now destruct (authors a) as [[|? ?]|]|].
  apply (f_equal2 app); [now destruct (statuses a) as [[|? ?]|]|].
  apply (f_equal2 app); [now destruct (tags a) as [[|? ?]|]|].
  apply (f_equal2 app); [now destruct (subset_ids a) as [[|? ?]|]|].
  apply (f_equal2 app); [now destruct (task_ids a) as [[|? ?]|]|].
  reflexivity.
Qed.

Lemma validations_without_falsy a :
  validations (without_falsy a) = validations a.
Proof.
  unfold VersionsQuery.validations. cbn [without_falsy authors statuses tags].
  now destruct (authors a) as [[|? ?]|], (statuses a) as [[|? ?]|],
    (tags a) as [[|? ?]|].
Qed.

(** X1. An empty list given for [ids], [versions], [statuses], [tags],
    [subset_ids], [task_ids] or [authors], and [version = 0], have the effect
    of leaving the argument out: the outcome is the same and so is every
    collaborator call. *)
Theorem get_versions_ignores_falsy_filters root info a w :
  fst (get_versions root info (without_falsy a) w) = fst (get_versions root info a w)
  /\ tail (calls_since w (snd (get_versions root info (without_falsy a) w)))
     = tail (calls_since w (snd (get_versions root info a w))).
Proof.
  apply staged_congruence.
  - apply keep_truthy_override.
  - apply validations_without_falsy.
  - apply conditions_without_falsy.
  - reflexivity.
  - reflexivity.
Qed.

(** X2. [latestOnly] shadows [heroOnly] and [heroOrLatestOnly], and
    [heroOnly] shadows [heroOrLatestOnly]: with the stronger flag set, the
    weaker ones change neither the outcome nor the query. *)
Theorem hero_flags_are_shadowed root info a h hl w :
  (latestOnly a = true ->
   fst (get_versions root info (with_hero_flags h hl a) w)
   = fst (get_versions root info a w)
   /\ tail (calls_since w (snd (get_versions root info (with_hero_flags h hl a) w)))
      = tail (calls_since w (snd (get_versions root info a w))))
  /\ (heroOnly a = true ->
      fst (get_versions root info (with_hero_flags true hl a) w)
      = fst (get_versions root info a w)
      /\ tail (calls_since w (snd (get_versions root info (with_hero_flags true hl a) w)))
         = tail (calls_since w (snd (get_versions root info a w)))).
Proof.
  split; intros Hflag; apply staged_congruence; try reflexivity.
  - unfold VersionsQuery.argument_conditions.
    cbn [with_hero_flags ids version versions authors statuses tags subset_ids
           task_ids latestOnly heroOnly heroOrLatestOnly has_links].
    now rewrite Hflag.
  - unfold VersionsQuery.argument_conditions.
    cbn [with_hero_flags ids version versions authors statuses tags subset_ids
           task_ids latestOnly heroOnly heroOrLatestOnly has_links].
    now rewrite Hflag.
Qed.

(** X3. A [sort_by] that is neither a key of [SORT_OPTIONS] nor starts with
    [attrib.] is found out only after the access list was asked for: when
    the call is not the empty override and the list validations pass,
    [get_versions] asks for the access list and then raises [ValueError]
    naming the [sort_by], or the exception of the access list if that
    raised.  In both cases no store query is run. *)
Theorem get_versions_invalid_sort_by root info a w (sb : string) :
  ids a <> Some [str_repeat "0" 32] ->
  validations a = Return tt ->
  sort_by a = Some sb ->
  SORT_OPTIONS !! sb = None ->
  String.prefix "attrib." sb = false ->
  get_versions root info a w
  = (match create_folder_access_list root info with
     | Return _ => Raise (ValueError ("Invalid sort_by value: " +:+ sb))
     | Raise e => Raise e
     end,
     logged w [GetVersions root a; CreateFolderAccessList root]).
Proof.
  intros Hov Hval Hsb Hopt Hpre.
  rewrite get_versions_stages. unfold VersionsQuery.get_versions_staged.
  rewrite bool_decide_eq_false_2 by done.
  rewrite Hval, Hsb. unfold order_by_of. rewrite Hopt, Hpre.
  now destruct (create_folder_access_list root info).
Qed.

(** X4. When a name or status list fails its validation, [get_versions]
    raises that exception and has called no collaborator: neither the access
    list nor the store is touched.  The author names are validated first. *)
Theorem get_versions_validation_failure root info a w e :
  ids a <> Some [str_repeat "0" 32] ->
  (validations a = Raise e ->
   get_versions root info a w = (Raise e, logged w [GetVersions root a]))
  /\ (truthy_list (authors a) = true ->
      validate_name_list (default [] (authors a)) = Raise e ->
      get_versions root info a w = (Raise e, logged w [GetVersions root a])).
Proof.
  intros Hov.
  assert (validations a = Raise e ->
          get_versions root info a w = (Raise e, logged w [GetVersions root a])) as Hfail.
  { intros Hval. rewrite get_versions_stages. unfold VersionsQuery.get_versions_staged.
    rewrite bool_decide_eq_false_2 by done. now rewrite Hval. }
  split; [exact Hfail|].
  intros Hauth Hname. apply Hfail.
  unfold VersionsQuery.validations. now rewrite Hauth, Hname.
Qed.

(** X5. [get_versions] runs at most one store query, as its last step, and
    its outcome is then the outcome of [resolve] for that query.  A
    connection it returns is either the empty override or came from the
    store. *)
Theorem get_versions_single_query root info a w :
  (length (List.filter is_store_query
             (calls_since w (snd (get_versions root info a w)))) <= 1)%nat
  /\ (forall q, In (StoreQuery q) (calls_since w (snd (get_versions root info a w))) ->
       fst (get_versions root info a w)
       = resolve (project_name root) q (first a) (last a) info
       /\ List.last (calls_since w (snd (get_versions root info a w)))
            (GetVersions root a)
          = StoreQuery q)
  /\ (forall c, fst (get_versions root info a w) = Return c ->
       (ids a = Some [str_repeat "0" 32] /\ edges c = [])
       \/ exists q, In (StoreQuery q)
                      (calls_since w (snd (get_versions root info a w)))).
Proof.
  rewrite get_versions_stages. unfold VersionsQuery.get_versions_staged.
  case_bool_decide as Hov.
  { cbn [fst snd]. rewrite calls_since_logged'.
    split; [cbn; lia|]. split; [intros q Hq; cbn in Hq; intuition discriminate|].
    intros c [= <-]. now left. }
  destruct (VersionsQuery.validations _ _ a).
  2: { cbn [fst snd]. rewrite calls_since_logged'.
       split; [cbn; lia|]. split; [intros q Hq; cbn in Hq; intuition discriminate|].
       discriminate. }
  destruct (create_folder_access_list root info).
  2: { cbn [fst snd]. rewrite calls_since_logged'.
       split; [cbn; lia|]. split; [intros q Hq; cbn in Hq; intuition discriminate|].
       discriminate. }
  destruct (order_by_of (sort_by a)).
  2: { cbn [fst snd]. rewrite calls_since_logged'.
       split; [cbn; lia|]. split; [intros q Hq; cbn in Hq; intuition discriminate|].
       discriminate. }
  destruct (create_pagination _ _ _ _ _ _) as [[[pg pc] cur]|].
  2: { cbn [fst snd]. rewrite calls_since_logged'.
       split; [cbn; lia|]. split; [intros q Hq; cbn in Hq; intuition discriminate|].
       discriminate. }
  cbn [fst snd]. rewrite calls_since_logged'.
  split; [cbn [List.filter is_store_query length]; lia|]. split.
  - intros q [Hq|[Hq|[Hq|[]]]]; try discriminate. injection Hq as <-. now split.
  - intros c _. right. eexists. right. right. left. reflexivity.
Qed.

(** X6. [get_version] with the id of 32 zeros returns [None]; it enters
    [get_versions], which takes the empty override, and no store query is
    run. *)
Theorem get_version_null_id root info w :
  get_version root info (str_repeat "0" 32) w
  = (Return None,
     logged w [GetVersions root (args_with_ids (Some [str_repeat "0" 32]))]).
Proof.
  rewrite VersionsProps.get_version_nonempty by discriminate.
  now rewrite VersionsProps.get_versions_empty_override.
Qed.

(** X7. [get_version] with any other non-empty id asks for the access list
    and then for the pagination of an unpaged listing ordered by creation
    order alone; if one of the two raises, [get_version] raises that
    exception and no query is run.  Otherwise it runs exactly one query,
    filtered on that id alone, plus the parent condition when the root is a
    subset or task node and the conditions of the access list and of the
    pagination; its result is the node of the first edge the store returns,
    [None] without an edge, and the exception of [resolve] if it raises. *)
Theorem get_version_query root info (id : string) w :
  id <> "" ->
  id <> str_repeat "0" 32 ->
  get_version root info id w
  = match create_folder_access_list root info with
    | Raise e =>
        (Raise e,
         logged w [GetVersions root (args_with_ids (Some [id]));
                   CreateFolderAccessList root])
    | Return al =>
        match create_pagination ["versions.creation_order"] None None None None
                (need_cursor FieldInfo_has_any info) with
        | Raise e =>
            (Raise e,
             logged w [GetVersions root (args_with_ids (Some [id]));
                       CreateFolderAccessList root])
        | Return (pg, pc, cur) =>
            let q :=
              query_text SQLTool_conditions (project_name root) cur
                (access_joins (project_name root) al)
                (["id IN " +:+ SQLTool_id_array [id]]
                 ++ when (String.eqb (class_name root) "SubsetNode")
                      ["subset_id = '" +:+ root_id root +:+ "'"]
                 ++ when (String.eqb (class_name root) "TaskNode")
                      ["task_id = '" +:+ root_id root +:+ "'"]
                 ++ access_conditions al ++ pc)
                pg in
            (match resolve (project_name root) q None None info with
             | Return c => Return (node <$> head (edges c))
             | Raise e => Raise e
             end,
             logged w [GetVersions root (args_with_ids (Some [id]));
                       CreateFolderAccessList root; StoreQuery q])
        end
    end.
Proof.
  intros Hid Hnull.
  rewrite VersionsProps.get_version_nonempty by done.
  rewrite get_versions_stages. unfold VersionsQuery.get_versions_staged.
  rewrite bool_decide_eq_false_2 by (intros [= Heq]; exact (Hnull Heq)).
  cbn [VersionsQuery.validations args_with_ids authors statuses tags truthy_list
         mbind outcome_bind sort_by order_by_of first after last before].
  destruct (create_folder_access_list root info) as [al|e]; [|reflexivity].
  destruct (create_pagination _ _ _ _ _ _) as [[[pg pc] cur]|e]; [|reflexivity].
  cbv zeta.
  replace (VersionsQuery.argument_conditions _ _ _ _ root (args_with_ids (Some [id]))
           ++ access_conditions al ++ pc)
    with (["id IN " +:+ SQLTool_id_array [id]]
          ++ when (String.eqb (class_name root) "SubsetNode")
               ["subset_id = '" +:+ root_id root +:+ "'"]
          ++ when (String.eqb (class_name root) "TaskNode")
               ["task_id = '" +:+ root_id root +:+ "'"]
          ++ access_conditions al ++ pc).
  - now destruct (resolve (project_name root) _ None None info).
  - unfold VersionsQuery.argument_conditions. cbn.
    now rewrite app_nil_r, <- !app_assoc.
Qed.

End Props.

(** ** The theorems at a sample store *)

Import VersionsSamples.

Import MoreSamples.

Lemma hero_flags_are_shadowed_witness :
  fst (get_versions_validating accept project_root tt
         (with_hero_flags true true (sample_args None true None)) fresh)
  = fst (get_versions_validating accept project_root tt
           (sample_args None true None) fresh).
Proof.
  apply (proj1 (hero_flags_are_shadowed id_array int_array str_array conditions
                  accept accept no_links_conds full_access no_cursor unpaged
                  one_version project_root tt (sample_args None true None)
                  true true fresh)).
  reflexivity.
Defined.

Lemma get_versions_invalid_sort_by_witness :
  get_versions_validating accept project_root tt
    (sample_args None false (Some "name")) fresh
  = (Raise (ValueError "Invalid sort_by value: name"),
     logged fresh [GetVersions project_root (sample_args None false (Some "name"));
                   CreateFolderAccessList project_root]).
Proof.
  apply (get_versions_invalid_sort_by id_array int_array str_array conditions
           accept accept no_links_conds full_access no_cursor unpaged one_version
           project_root tt _ fresh "name");
    (reflexivity || discriminate).
Defined.

Lemma get_versions_validation_failure_witness :
  get_versions_validating reject project_root tt
    (sample_args (Some ["no such user"]) false None) fresh
  = (Raise (BadRequestException "Invalid name"),
     logged fresh
       [GetVersions project_root (sample_args (Some ["no such user"]) false None)]).
Proof.
  apply (proj2 (get_versions_validation_failure id_array int_array str_array conditions
                  reject accept no_links_conds full_access no_cursor unpaged one_version
                  project_root tt (sample_args (Some ["no such user"]) false None)
                  fresh (BadRequestException "Invalid name")
                  ltac:(discriminate)));
    reflexivity.
Defined.

Lemma get_versions_single_query_witness :
  exists q,
    In (StoreQuery q)
      (calls_since fresh
         (snd (get_versions_validating accept project_root tt
                 (sample_args None false None) fresh))).
Proof.
  destruct (proj2 (proj2 (get_versions_single_query id_array int_array str_array
                            conditions accept accept no_links_conds full_access
                            no_cursor unpaged one_version project_root tt
                            (sample_args None false None) fresh))
              {| edges := [{| node := "v001"; cursor := None |}] |} eq_refl)
    as [[Hov _]|Hq].
  - discriminate Hov.
  - exact Hq.
Defined.

Lemma get_version_query_witness :
  sample_get_version one_version project_root tt "4f2c" fresh
  = (Return (Some "v001"),
     logged fresh
       [GetVersions project_root (args_with_ids (Some ["4f2c"]));
        CreateFolderAccessList project_root;
        StoreQuery
          (query_text conditions "demo" "NULL AS cursor" [] ["id IN (4f2c)"]
             "ORDER BY versions.creation_order")]).
Proof.
  apply (get_version_query id_array int_array str_array conditions
           accept accept no_links_conds full_access no_cursor unpaged one_version
           project_root tt "4f2c" fresh);
    discriminate.
Defined.

End VersionsMore.

(** * More on the enrollment endpoint *)

Module EnrollMore.

Import Enroll EnrollAux.

Section Props.

Context {Filter EnrollResponseModel Store : Type}.
Variable TOPIC_REGEX_match : string -> bool.
Variable enroll_job :
  @EnrollJobArgs Filter -> Store -> outcome (option EnrollResponseModel) * Store.

Local Abbreviation enroll := (Enroll.enroll TOPIC_REGEX_match enroll_job).
Local Abbreviation validate_source_topic := (Enroll.validate_source_topic TOPIC_REGEX_match).
Local Abbreviation validate_source_topics := (Enroll.validate_source_topics TOPIC_REGEX_match).
Local Abbreviation validate_source := (Enroll.validate_source TOPIC_REGEX_match).

Implicit Types (p : @EnrollRequestModel Filter) (u : CurrentUser)
  (w : @World Filter EnrollResponseModel Store).

(** A run, with its outcome and final world named. *)
Lemma enroll_run_of p u w out :
  enroll p u w = out -> enroll_run TOPIC_REGEX_match enroll_job p u w out.
Proof. intros <-. apply EnrollProps.enroll_runs. Qed.

Ltac by_run p u w :=
  let R := fresh "R" in
  let out := fresh "out" in
  let Hout := fresh "Hout" in
  destruct (enroll p u w) as [? ?] eqn:Hout;
  apply enroll_run_of in Hout;
  inversion Hout; subst; clear Hout.

(** ** Validated source topics *)

Lemma validate_topics_returns (l vs : list string) :
  validate_source_topics l = Return vs ->
  Forall (fun t => TOPIC_REGEX_match t = true) l
  /\ vs = str_map star_to_percent <$> l.
Proof.
  revert vs. induction l as [|t l IH]; intros vs.
  - intros [= <-]. now split.
  - cbn [Enroll.validate_source_topics]. unfold Enroll.validate_source_topic at 1.
    destruct (TOPIC_REGEX_match t) eqn:Ht; cbn; [|discriminate].
    destruct (validate_source_topics l) as [vs'|] eqn:Hl; cbn; [|discriminate].
    intros [= <-]. destruct (IH vs' eq_refl) as [Hall ->].
    split; [now constructor|]. cbn. now rewrite EnrollProps.replace_star_map.
Qed.

Lemma validate_source_returns (src st : str_or_list) :
  validate_source src = Return st ->
  Forall (fun t => TOPIC_REGEX_match t = true) (topics_of src)
  /\ topics_of st = str_map star_to_percent <$> topics_of src
  /\ is_single st = is_single src.
Proof.
  destruct src as [s|l]; cbn.
  - unfold Enroll.validate_source_topic.
    destruct (TOPIC_REGEX_match s) eqn:Hs; cbn; [|discriminate].
    intros [= <-]. cbn. rewrite EnrollProps.replace_star_map.
    repeat split. now constructor.
  - destruct (validate_source_topics l) as [vs|] eqn:Hl; cbn; [|discriminate].
    intros [= <-]. apply validate_topics_returns in Hl as [Hall ->]. now repeat split.
Qed.

(** X8. What a run asks of its collaborators is one of three things:
    nothing, the pool size twice (and then it is refused), or the pool size
    once and [enroll_job] once.  The store is changed by [enroll_job] alone:
    it is the one [enroll_job] leaves in the last case, and untouched
    otherwise. *)
Theorem enroll_calls_shape p u w :
  (calls_since w (snd (enroll p u w)) = []
   /\ store (snd (enroll p u w)) = store w)
  \/ (calls_since w (snd (enroll p u w))
      = [GetAvailableConnections; GetAvailableConnections]
      /\ store (snd (enroll p u w)) = store w)
  \/ (exists a,
        calls_since w (snd (enroll p u w))
        = [GetAvailableConnections; EnrollJob a (fst (enroll_job a (store w)))]
        /\ store (snd (enroll p u w)) = snd (enroll_job a (store w))).
Proof.
  by_run p u w; cbn [fst snd].
  1-3: left; now rewrite EnrollProps.calls_since_refl.
  - right. left. now rewrite EnrollProps.calls_since_log2.
  - right. right. eexists. now rewrite EnrollProps.calls_since_app.
Qed.

(** X9. [enroll_job] is only ever called for a service caller, with at
    least three free connections and a target topic without wildcard; it
    receives the caller's name, the validated source topic and the other
    fields of the request unchanged, and is run on the store as the request
    found it. *)
Theorem enroll_job_call_is_guarded p u w a r :
  In (EnrollJob a r) (calls_since w (snd (enroll p u w))) ->
  is_service u = true
  /\ 3 <= available_connections w
  /\ str_contains "*" (arg_target_topic a) = false
  /\ validate_source (source_topic p) = Return (arg_source_topic a)
  /\ a = job_args p u (arg_source_topic a) (Some (ignore_older_than p))
  /\ r = fst (enroll_job a (store w)).
Proof.
  by_run p u w; cbn [fst snd]; intros Hin.
  1-3: now rewrite EnrollProps.calls_since_refl in Hin.
  - rewrite EnrollProps.calls_since_log2 in Hin. cbn in Hin. intuition discriminate.
  - rewrite EnrollProps.calls_since_app in Hin. cbn in Hin.
    destruct Hin as [Hin|[Hin|[]]]; [discriminate|].
    injection Hin as <- <-. cbn. repeat split; assumption.
Qed.

(** X10. The source patterns reach [enroll_job] one for one and in order,
    each with its [*] turned into [%] and nothing else changed; a single
    string stays a single string, a list a list; every pattern of the
    request matched the topic grammar, and no pattern handed on contains a
    wildcard [*]. *)
Theorem enroll_job_source_patterns p u w a r :
  In (EnrollJob a r) (calls_since w (snd (enroll p u w))) ->
  topics_of (arg_source_topic a)
  = str_map star_to_percent <$> topics_of (source_topic p)
  /\ is_single (arg_source_topic a) = is_single (source_topic p)
  /\ Forall (fun t => TOPIC_REGEX_match t = true) (topics_of (source_topic p))
  /\ Forall (fun t => str_contains "*" t = false) (topics_of (arg_source_topic a)).
Proof.
  by_run p u w; cbn [fst snd]; intros Hin.
  1-3: now rewrite EnrollProps.calls_since_refl in Hin.
  - rewrite EnrollProps.calls_since_log2 in Hin. cbn in Hin. intuition discriminate.
  - rewrite EnrollProps.calls_since_app in Hin. cbn in Hin.
    destruct Hin as [Hin|[Hin|[]]]; [discriminate|].
    injection Hin as <- _. cbn [job_args arg_source_topic].
    match goal with H : validate_source _ = Return _ |- _ =>
      apply validate_source_returns in H as (Hall & Htopics & Hsingle) end.
    repeat split; try assumption.
    rewrite Htopics. apply Forall_fmap, Forall_forall. intros t _.
    apply EnrollProps.map_star_free.
Qed.

(** X11. The endpoint returns a job exactly when [enroll_job] was called and
    returned that job, and the empty response exactly when [enroll_job] was
    called and returned [None]: it neither invents nor drops a result. *)
Theorem enroll_returns_what_enroll_job_found p u w :
  (forall j, fst (enroll p u w) = Return (Job j)
             <-> exists a, In (EnrollJob a (Return (Some j)))
                             (calls_since w (snd (enroll p u w))))
  /\ (fst (enroll p u w) = Return EmptyResponse
      <-> exists a, In (EnrollJob a (Return None))
                      (calls_since w (snd (enroll p u w)))).
Proof.
  by_run p u w; cbn [fst snd].
  1-3: rewrite EnrollProps.calls_since_refl;
       split; [intros j|]; (split; [discriminate|intros [a []]]).
  - rewrite EnrollProps.calls_since_log2.
    split; [intros j|]; (split; [discriminate|]);
      intros [a Hin]; cbn in Hin; intuition discriminate.
  - rewrite EnrollProps.calls_since_app.
    match goal with |- context [as_response ?x] => destruct x as [[j'|]|e] end;
      cbn [as_response];
      (split; [intros j|]); split;
      try discriminate;
      try (intros [a [Hin|[Hin|[]]]]; discriminate);
      try (intros _; eexists; right; left; reflexivity).
    + intros [= <-]. eexists. right. left. reflexivity.
    + intros [a [Hin|[Hin|[]]]]; [discriminate|]. now injection Hin as _ <-.
Qed.

(** X12. A pattern the grammar admits and that holds no [*] comes back from
    the validation as it is, and no validated pattern changes its length. *)
Theorem validate_source_topic_keeps_plain_topics (value : string) :
  (TOPIC_REGEX_match value = true -> str_contains "*" value = false ->
   validate_source_topic value = Return value)
  /\ (forall v, validate_source_topic value = Return v ->
                String.length v = String.length value).
Proof.
  assert (forall s, String.length (str_map star_to_percent s) = String.length s) as Hlen.
  { induction s as [|c s IH]; [reflexivity|]. cbn [str_map String.length]. now rewrite IH. }
  assert (forall s, str_contains "*" s = false -> str_map star_to_percent s = s) as Hid.
  { induction s as [|c s IH]; [reflexivity|].
    rewrite EnrollProps.contains_star_cons. intros [Hc Hs]%orb_false_iff.
    cbn [str_map]. unfold star_to_percent at 1. rewrite Hc. now rewrite IH. }
  split.
  - intros Hm Hplain. unfold Enroll.validate_source_topic. rewrite Hm. cbn.
    now rewrite EnrollProps.replace_star_map, Hid.
  - intros v. unfold Enroll.validate_source_topic.
    destruct (TOPIC_REGEX_match value); cbn; [|discriminate].
    intros [= <-]. now rewrite EnrollProps.replace_star_map.
Qed.

(** X13. A body is accepted only if it gives the three required fields and
    its target topic matches [TOPIC_REGEX]; the model then holds exactly the
    values the body gave, also for the optional fields.  A target topic that
    does not match is refused with a regex error. *)
Theorem enroll_request_validation (b : @EnrollRequestBody Filter) :
  (forall m, EnrollRequestModel_validate TOPIC_REGEX_match b = inr m ->
     body_source_topic b = Some (source_topic m)
     /\ body_target_topic b = Some (target_topic m)
     /\ body_sender b = Some (sender m)
     /\ TOPIC_REGEX_match (target_topic m) = true
     /\ (forall v, body_description b = Some v -> description m = v)
     /\ (forall v, body_sequential b = Some v -> sequential m = v)
     /\ (forall v, body_filter b = Some v -> filter m = v)
     /\ (forall v, body_max_retries b = Some v -> max_retries m = v)
     /\ (forall v, body_ignore_older_than b = Some v -> ignore_older_than m = v)
     /\ (forall v, body_sloth_mode b = Some v -> sloth_mode m = v))
  /\ (forall tgt, body_target_topic b = Some tgt -> TOPIC_REGEX_match tgt = false ->
        exists errs, EnrollRequestModel_validate TOPIC_REGEX_match b = inl errs
                     /\ In (RegexMismatch "target_topic") errs).
Proof.
  split.
  - intros m. unfold EnrollRequestModel_validate, field_errors.
    destruct (body_source_topic b) as [src|]; [|discriminate].
    destruct (body_target_topic b) as [tgt|]; [|discriminate].
    destruct (body_sender b) as [snd|]; [|cbn; destruct (TOPIC_REGEX_match tgt); discriminate].
    destruct (TOPIC_REGEX_match tgt) eqn:Ht; cbn; [|discriminate].
    intros [= <-]. cbn. rewrite Ht.
    repeat split; intros v ->; reflexivity.
  - intros tgt Htgt Hm. unfold EnrollRequestModel_validate, field_errors.
    rewrite Htgt, Hm.
    destruct (body_source_topic b), (body_sender b); cbn;
      (eexists; split; [reflexivity|]); cbn; auto.
Qed.

End Props.

(** ** The theorems at sample requests *)

Import Samples.

Lemma enroll_job_call_is_guarded_witness :
  is_service worker = true
  /\ 3 <= available_connections (world_with 5)
  /\ str_contains "*" "ftrack.sync_to_ayon" = false.
Proof.
  destruct (enroll_job_call_is_guarded Spec.topic_grammar busy_queue
              (request (StrList ["ftrack.*"; "shotgrid.event"]) "ftrack.sync_to_ayon" 3)
              worker (world_with 5)
              (job_args (request (StrList ["ftrack.*"; "shotgrid.event"])
                           "ftrack.sync_to_ayon" 3)
                 worker (StrList ["ftrack.%"; "shotgrid.event"]) (Some 3))
              (Return (Some "job-1")))
    as (Hs & Hfree & Htgt & _).
  - vm_compute. right. left. reflexivity.
  - exact (conj Hs (conj Hfree Htgt)).
Defined.

Lemma enroll_job_source_patterns_witness :
  topics_of (StrList ["ftrack.%"; "shotgrid.event"])
  = str_map star_to_percent <$> ["ftrack.*"; "shotgrid.event"].
Proof.
  apply (enroll_job_source_patterns Spec.topic_grammar busy_queue
           (request (StrList ["ftrack.*"; "shotgrid.event"]) "ftrack.sync_to_ayon" 3)
           worker (world_with 5)
           (job_args (request (StrList ["ftrack.*"; "shotgrid.event"])
                        "ftrack.sync_to_ayon" 3)
              worker (StrList ["ftrack.%"; "shotgrid.event"]) (Some 3))
           (Return (Some "job-1"))).
  vm_compute. right. left. reflexivity.
Defined.

Lemma enroll_returns_what_enroll_job_found_witness :
  fst (sample_enroll busy_queue (request (Str "ftrack.*") "ftrack.sync_to_ayon" 3)
         worker (world_with 5))
  = Return (Job "job-1").
Proof.
  apply (proj1 (enroll_returns_what_enroll_job_found Spec.topic_grammar busy_queue
                  (request (Str "ftrack.*") "ftrack.sync_to_ayon" 3)
                  worker (world_with 5))).
  eexists. vm_compute. right. left. reflexivity.
Defined.

Lemma validate_source_topic_keeps_plain_topics_witness :
  Enroll.validate_source_topic Spec.topic_grammar "ftrack.update" = Return "ftrack.update".
Proof.
  apply (proj1 (validate_source_topic_keeps_plain_topics Spec.topic_grammar
                  "ftrack.update"));
    reflexivity.
Defined.

Lemma enroll_request_validation_witness :
  exists errs,
    EnrollRequestModel_validate Spec.topic_grammar
      {| body_source_topic := Some (Str "ftrack.update");
         body_target_topic := Some "ftrack sync";
         body_sender := Some "workerservice01";
         body_description := None; body_sequential := None;
         body_filter := @None (option unit);
         body_max_retries := None; body_ignore_older_than := None;
         body_sloth_mode := None |} = inl errs
    /\ In (RegexMismatch "target_topic") errs.
Proof.
  apply (proj2 (enroll_request_validation Spec.topic_grammar _) "ftrack sync");
    reflexivity.
Defined.

End EnrollMore.

(** * More on the reviewable sorting endpoint *)

Module SortingMore.

Import Sorting.

Lemma empty_set_of_list (l : list string) :
  list_to_set l = (∅ : gset string) -> l = [].
Proof.
  destruct l as [|x l]; [done|].
  intros H. assert (x ∈ (∅ : gset string)) as Hin; [|set_solver].
  rewrite <- H. set_solver.
Qed.

Lemma project_eq (P P' : Project) :
  activity_feed P = activity_feed P' -> activities P = activities P' -> P = P'.
Proof. destruct P, P'; cbn. now intros -> ->. Qed.

(** The last occurrence of a listed id. *)
Lemma last_occurrence (ids : list string) (id : string) :
  id ∈ ids ->
  exists k : nat, ids !! k = Some id /\ forall j, (k < j)%nat -> ids !! j <> Some id.
Proof.
  induction ids as [|x ids IH]; [intros Hin; inversion Hin|].
  intros Hin. destruct (decide (id ∈ ids)) as [Hlater|Hnot].
  - destruct (IH Hlater) as (k & Hk & Hlast). exists (S k). split; [exact Hk|].
    intros [|j] Hj; [lia|]. cbn. apply Hlast. lia.
  - apply elem_of_cons in Hin as [->|Hin]; [|done].
    exists 0%nat. split; [reflexivity|].
    intros [|j] Hj; [lia|]. cbn. intros Hx. apply Hnot.
    now apply list_elem_of_lookup_2 in Hx.
Qed.

Section Props.

Context {CurrentUser VersionEntity : Type}.
Variable VersionEntity_load : string -> string -> outcome VersionEntity.
Variable ensure_update_access : VersionEntity -> CurrentUser -> outcome unit.

Local Abbreviation sort_version_reviewables :=
  (Sorting.sort_version_reviewables VersionEntity_load ensure_update_access).

Implicit Types (w : World) (ids : list string) (i : Z).

Lemma stored_none w pn vid :
  stored_reviewable_ids w pn vid = ∅
  <-> activity_id <$> List.filter (is_version_reviewable vid)
                        (activity_feed (projects w pn)) = [].
Proof.
  unfold stored_reviewable_ids. split; [apply empty_set_of_list|now intros ->].
Qed.

(** Every row after the update loop is the row before it, with at most its
    [reviewableOrder] written. *)
Lemma update_orders_row pn i ids w (id : string) :
  activities (projects (snd (update_orders pn i ids w)) pn) !! id
  = activities (projects w pn) !! id
  \/ exists v,
       activities (projects (snd (update_orders pn i ids w)) pn) !! id
       = insert "reviewableOrder" v <$> activities (projects w pn) !! id.
Proof.
  destruct (decide (id ∈ ids)) as [Hin|Hnot].
  - destruct (last_occurrence ids id Hin) as (k & Hk & Hlast).
    right. exists (JInt (i + Z.of_nat k)). now apply SortingProps.update_orders_last.
  - left. now apply SortingProps.update_orders_unlisted.
Qed.

(** The world a run leaves: the tables as they were, or as the update loop
    over the requested list left them. *)
Lemma sort_world user pn vid request w :
  projects (snd (sort_version_reviewables user pn vid request w)) = projects w
  \/ exists ids,
       sort request = Some ids
       /\ snd (sort_version_reviewables user pn vid request w)
          = snd (update_orders pn 0 ids w).
Proof.
  destruct (VersionEntity_load pn vid) as [v|e] eqn:Hload.
  2: { left. unfold Sorting.sort_version_reviewables, mbind, M_bind, lift.
       now rewrite Hload. }
  destruct (ensure_update_access v user) as [[]|e] eqn:Haccess.
  2: { left. unfold Sorting.sort_version_reviewables, mbind, M_bind, lift.
       now rewrite Hload, Haccess. }
  rewrite (SortingProps.sort_after_access _ _ _ _ _ _ _ v Hload Haccess).
  destruct (activity_id <$> _); [now left|].
  destruct (sort request) as [ids|]; [|now left].
  case_bool_decide; [|now left].
  right. now exists ids.
Qed.

(** No run touches an activity feed. *)
Lemma sort_keeps_feed user pn vid request w q :
  activity_feed (projects (snd (sort_version_reviewables user pn vid request w)) q)
  = activity_feed (projects w q).
Proof.
  destruct (sort_world user pn vid request w) as [->|(ids & _ & ->)]; [done|].
  destruct (decide (q = pn)) as [->|Hq].
  - apply SortingProps.update_orders_feed.
  - now rewrite SortingProps.update_orders_other.
Qed.

(** X14. A request without a sort list changes nothing: with the version
    loaded and update access granted it returns when the version has stored
    reviewables and fails with [NotFound] when it has none, and the world is
    the same in both cases. *)
Theorem sort_none_changes_nothing user pn vid w v :
  VersionEntity_load pn vid = Return v ->
  ensure_update_access v user = Return tt ->
  (stored_reviewable_ids w pn vid <> ∅ ->
   sort_version_reviewables user pn vid {| sort := None |} w = (Return tt, w))
  /\ (stored_reviewable_ids w pn vid = ∅ ->
      sort_version_reviewables user pn vid {| sort := None |} w
      = (Raise (NotFoundException "Version not found"), w)).
Proof.
  intros Hload Haccess.
  rewrite (SortingProps.sort_after_access _ _ _ _ _ _ _ v Hload Haccess).
  rewrite stored_none.
  destruct (activity_id <$> _); split; intros H; done.
Qed.

(** X15. The failures of the endpoint in their order: an exception of
    [VersionEntity.load] or of [ensure_update_access] ends the call as it is;
    then a version without stored reviewables is [NotFound] whatever the
    request asks for, before the sort list is looked at.  In all three cases
    the world is left as it was and nothing is printed. *)
Theorem sort_failures_in_order user pn vid request w :
  (forall e, VersionEntity_load pn vid = Raise e ->
     sort_version_reviewables user pn vid request w = (Raise e, w))
  /\ (forall v e, VersionEntity_load pn vid = Return v ->
       ensure_update_access v user = Raise e ->
       sort_version_reviewables user pn vid request w = (Raise e, w))
  /\ (forall v, VersionEntity_load pn vid = Return v ->
       ensure_update_access v user = Return tt ->
       stored_reviewable_ids w pn vid = ∅ ->
       sort_version_reviewables user pn vid request w
       = (Raise (NotFoundException "Version not found"), w)).
Proof.
  repeat apply conj.
  - intros e Hload. unfold Sorting.sort_version_reviewables, mbind, M_bind, lift.
    now rewrite Hload.
  - intros v e Hload Haccess.
    unfold Sorting.sort_version_reviewables, mbind, M_bind, lift.
    now rewrite Hload, Haccess.
  - intros v Hload Haccess Hnone.
    rewrite (SortingProps.sort_after_access _ _ _ _ _ _ _ v Hload Haccess).
    apply stored_none in Hnone. now rewrite Hnone.
Qed.

(** X16. Whatever the request and however the call ends, it creates and
    deletes no activity row, writes no key of a row other than
    [reviewableOrder], and leaves the activity feed and every other project
    as they were; so the stored reviewable ids of the version are the same
    after the call. *)
Theorem sort_keeps_rows_and_feed user pn vid request w :
  let w' := snd (sort_version_reviewables user pn vid request w) in
  (forall q, activity_feed (projects w' q) = activity_feed (projects w q))
  /\ (forall q, q <> pn -> projects w' q = projects w q)
  /\ (forall q, dom (activities (projects w' q)) = dom (activities (projects w q)))
  /\ (forall q (id key : string), key <> "reviewableOrder" ->
       (activities (projects w' q) !! id ≫= lookup key)
       = (activities (projects w q) !! id ≫= lookup key))
  /\ stored_reviewable_ids w' pn vid = stored_reviewable_ids w pn vid.
Proof.
  intros w'.
  assert (forall q, activity_feed (projects w' q) = activity_feed (projects w q)) as Hfeed
    by (intros q; apply sort_keeps_feed).
  assert (forall q (id : string),
            activities (projects w' q) !! id = activities (projects w q) !! id
            \/ exists v, activities (projects w' q) !! id
                         = insert "reviewableOrder" v
                             <$> activities (projects w q) !! id) as Hrow.
  { intros q id. subst w'.
    destruct (sort_world user pn vid request w) as [->|(ids & _ & ->)]; [now left|].
    destruct (decide (q = pn)) as [->|Hq].
    - apply update_orders_row.
    - left. now rewrite SortingProps.update_orders_other. }
  repeat apply conj.
  - exact Hfeed.
  - intros q Hq. subst w'.
    destruct (sort_world user pn vid request w) as [->|(ids & _ & ->)]; [done|].
    now apply SortingProps.update_orders_other.
  - intros q. apply set_eq. intros id. rewrite !elem_of_dom.
    destruct (Hrow q id) as [->|[v ->]]; [done|]. apply fmap_is_Some.
  - intros q id key Hkey.
    destruct (Hrow q id) as [->|[v ->]]; [done|].
    destruct (activities (projects w q) !! id) as [data|]; [|done].
    cbn. now apply lookup_insert_ne.
  - unfold stored_reviewable_ids. now rewrite Hfeed.
Qed.

(** X17. A duplicate-free list that passes the check numbers its rows from
    [0] in list order: reading [reviewableOrder] along the list gives
    [0, 1, 2, ...], so ordering by it returns the requested order. *)
Theorem sort_numbers_rows_in_order user pn vid ids w v :
  VersionEntity_load pn vid = Return v ->
  ensure_update_access v user = Return tt ->
  list_to_set ids = stored_reviewable_ids w pn vid ->
  NoDup ids ->
  (forall id : string, id ∈ ids -> is_Some (activities (projects w pn) !! id)) ->
  let w' := snd (sort_version_reviewables user pn vid {| sort := Some ids |} w) in
  reviewable_order w' pn <$> ids
  = (fun k : nat => Some (JInt (Z.of_nat k))) <$> seq 0 (length ids).
Proof.
  intros Hload Haccess Heq Hnodup Hrows w'. subst w'.
  rewrite (SortingProps.sort_after_access _ _ _ _ _ _ _ v Hload Haccess). cbn [sort].
  rewrite bool_decide_eq_true_2 by done.
  unfold stored_reviewable_ids in Heq.
  destruct (activity_id <$> _) as [|r res].
  { apply (empty_set_of_list ids) in Heq as ->. reflexivity. }
  apply list_eq. intros k. rewrite !list_lookup_fmap.
  destruct (ids !! k) as [id|] eqn:Hk.
  - rewrite lookup_seq_lt by (now apply lookup_lt_Some in Hk). cbn.
    f_equal. unfold reviewable_order.
    rewrite (SortingProps.update_orders_last pn 0 ids w k id Hk).
    + destruct (Hrows id) as [data ->]; [now apply list_elem_of_lookup_2 in Hk|].
      cbn. rewrite Z.add_0_l. apply lookup_insert_eq.
    + intros j Hj Hid. pose proof (NoDup_lookup _ _ _ _ Hnodup Hk Hid). lia.
  - rewrite lookup_seq_ge by (now apply lookup_ge_None in Hk). reflexivity.
Qed.

(** X18. A later sort overrides an earlier one completely: after two
    accepted sorts of the same version the tables are those the second list
    alone gives; in particular sorting twice with the same list is sorting
    once. *)
Theorem later_sort_overrides user pn vid ids1 ids2 w v :
  VersionEntity_load pn vid = Return v ->
  ensure_update_access v user = Return tt ->
  list_to_set ids1 = stored_reviewable_ids w pn vid ->
  list_to_set ids2 = stored_reviewable_ids w pn vid ->
  let w1 := snd (sort_version_reviewables user pn vid {| sort := Some ids1 |} w) in
  fst (sort_version_reviewables user pn vid {| sort := Some ids2 |} w1)
  = fst (sort_version_reviewables user pn vid {| sort := Some ids2 |} w)
  /\ forall q,
      projects (snd (sort_version_reviewables user pn vid {| sort := Some ids2 |} w1)) q
      = projects (snd (sort_version_reviewables user pn vid {| sort := Some ids2 |} w)) q.
Proof.
  intros Hload Haccess Heq1 Heq2 w1.
  assert (activity_feed (projects w1 pn) = activity_feed (projects w pn)) as Hfeed
    by apply sort_keeps_feed.
  assert (stored_reviewable_ids w1 pn vid = stored_reviewable_ids w pn vid) as Hstored
    by (unfold stored_reviewable_ids; now rewrite Hfeed).
  assert (w1 = snd (if bool_decide (stored_reviewable_ids w pn vid = ∅)
                    then (Return tt, w) else update_orders pn 0 ids1 w)) as Hw1.
  { subst w1.
    rewrite (SortingProps.sort_after_access _ _ _ _ _ _ _ v Hload Haccess). cbn [sort].
    rewrite (bool_decide_eq_true_2 _ Heq1).
    case_bool_decide as Hnone.
    - apply stored_none in Hnone. now rewrite Hnone.
    - destruct (activity_id <$> _) eqn:Hres; [|done].
      exfalso. apply Hnone. now apply stored_none. }
  rewrite !(SortingProps.sort_after_access _ _ _ _ _ _ _ v Hload Haccess). cbn [sort].
  rewrite Hstored, Hfeed, (bool_decide_eq_true_2 _ Heq2).
  destruct (activity_id <$> _) as [|r res] eqn:Hres.
  { split; [reflexivity|]. intros q. cbn.
    rewrite Hw1, bool_decide_eq_true_2; [done|]. now apply stored_none. }
  rewrite bool_decide_eq_false_2 in Hw1.
  2: { intros Hnone. apply stored_none in Hnone. congruence. }
  split.
  { now rewrite !(proj1 (SortingProps.update_orders_returns _ _ _ _)). }
  intros q. destruct (decide (q = pn)) as [->|Hq].
  2: { rewrite !SortingProps.update_orders_other by done. rewrite Hw1.
       now rewrite SortingProps.update_orders_other. }
  apply project_eq.
  { rewrite !SortingProps.update_orders_feed. exact Hfeed. }
  apply map_eq. intros id.
  destruct (decide (id ∈ ids2)) as [Hin|Hnot].
  - destruct (last_occurrence ids2 id Hin) as (k & Hk & Hlast).
    rewrite !(SortingProps.update_orders_last pn 0 ids2 _ k id Hk Hlast).
    rewrite Hw1.
    destruct (update_orders_row pn 0 ids1 w id) as [->|[x ->]]; [done|].
    destruct (activities (projects w pn) !! id); [|done].
    cbn. now rewrite insert_insert_eq.
  - rewrite !SortingProps.update_orders_unlisted by done.
    rewrite Hw1. apply SortingProps.update_orders_unlisted.
    intros Hin1. apply Hnot.
    apply (elem_of_list_to_set (C:=gset string)).
    rewrite Heq2, <- Heq1. now apply elem_of_list_to_set.
Qed.

End Props.

(** ** The theorems at a sample project *)

Import SortingSamples MoreSamples.

Lemma sort_none_changes_nothing_witness :
  sample_sort "reviewer" "demo" "v1" {| sort := None |} world = (Return tt, world).
Proof.
  apply (proj1 (sort_none_changes_nothing load_any allow_any
                  "reviewer" "demo" "v1" world "v1" eq_refl eq_refl)).
  apply (bool_decide_unpack _). vm_compute. exact I.
Defined.

Lemma sort_failures_in_order_witness :
  sort_of_missing "reviewer" "demo" "v9" {| sort := Some ["a"] |} world
  = (Raise (NotFoundException "Version not found"), world).
Proof.
  apply (proj1 (sort_failures_in_order load_missing allow_any
                  "reviewer" "demo" "v9" {| sort := Some ["a"] |} world)).
  reflexivity.
Defined.

Lemma sort_keeps_rows_and_feed_witness :
  projects (snd (sample_sort "reviewer" "demo" "v1" {| sort := Some ["b"; "a"] |} world))
    "other"
  = projects world "other".
Proof.
  apply (proj1 (proj2 (sort_keeps_rows_and_feed load_any allow_any
                         "reviewer" "demo" "v1" {| sort := Some ["b"; "a"] |} world))).
  discriminate.
Defined.

Lemma sort_numbers_rows_in_order_witness :
  reviewable_order
    (snd (sample_sort "reviewer" "demo" "v1" {| sort := Some ["b"; "a"] |} world)) "demo"
    <$> ["b"; "a"]
  = [Some (JInt 0); Some (JInt 1)].
Proof.
  apply (sort_numbers_rows_in_order load_any allow_any
           "reviewer" "demo" "v1" ["b"; "a"] world "v1" eq_refl eq_refl).
  - apply (bool_decide_unpack _). vm_compute. exact I.
  - apply (bool_decide_unpack _). vm_compute. exact I.
  - intros id Hin. apply (bool_decide_unpack _) in Hin || idtac.
    apply elem_of_cons in Hin as [->|Hin]; [vm_compute; eauto|].
    apply elem_of_cons in Hin as [->|Hin]; [vm_compute; eauto|].
    inversion Hin.
Defined.

Lemma later_sort_overrides_witness :
  fst (sample_sort "reviewer" "demo" "v1" {| sort := Some ["b"; "a"] |}
         (snd (sample_sort "reviewer" "demo" "v1" {| sort := Some ["a"; "b"] |} world)))
  = fst (sample_sort "reviewer" "demo" "v1" {| sort := Some ["b"; "a"] |} world).
Proof.
  apply (later_sort_overrides load_any allow_any
           "reviewer" "demo" "v1" ["a"; "b"] ["b"; "a"] world "v1" eq_refl eq_refl).
  - apply (bool_decide_unpack _). vm_compute. exact I.
  - apply (bool_decide_unpack _). vm_compute. exact I.
Defined.

End SortingMore.

(** * Properties of the secrets store *)

Module SecretsProps.

Import Secrets.

Implicit Types (rows : list (string * string)) (key value : string) (w : World).

Lemma has_name_spec key (row : string * string) :
  has_name key row = true <-> fst row = key.
Proof. unfold has_name. apply String.eqb_eq. Qed.

Lemma existsb_has_name key rows :
  existsb (has_name key) rows = true <-> key ∈ names rows.
Proof.
  rewrite existsb_exists. unfold names. rewrite list_elem_of_fmap. split.
  - intros (row & Hin & Hrow). exists row. apply has_name_spec in Hrow.
    split; [done|]. now apply list_elem_of_In.
  - intros (row & -> & Hin). exists row. split; [now apply list_elem_of_In|].
    now apply has_name_spec.
Qed.

Lemma select_absent key rows :
  key ∉ names rows -> select_value key rows = [].
Proof.
  unfold select_value, names. induction rows as [|row rows IH]; [done|].
  cbn. intros [Hne Hnot]%not_elem_of_cons.
  destruct (has_name key row) eqn:Hrow.
  - apply has_name_spec in Hrow. congruence.
  - now apply IH.
Qed.

Lemma names_update key value rows :
  names ((fun row => if has_name key row then (fst row, value) else row) <$> rows)
  = names rows.
Proof.
  unfold names. rewrite <- list_fmap_compose. apply list_fmap_ext.
  intros _ row _. cbn. now destruct (has_name key row).
Qed.

Lemma select_update key value rows :
  select_value key
    ((fun row => if has_name key row then (fst row, value) else row) <$> rows)
  = (fun _ => value) <$> select_value key rows.
Proof.
  unfold select_value. induction rows as [|row rows IH]; [done|].
  cbn. destruct (has_name key row) eqn:Hrow.
  - replace (has_name key (fst row, value)) with true
      by (symmetry; apply has_name_spec; now apply has_name_spec in Hrow).
    cbn. now rewrite IH.
  - rewrite Hrow. exact IH.
Qed.

Lemma select_update_other key key' value rows :
  key' <> key ->
  select_value key'
    ((fun row => if has_name key row then (fst row, value) else row) <$> rows)
  = select_value key' rows.
Proof.
  intros Hne. unfold select_value. induction rows as [|row rows IH]; [done|].
  cbn. destruct (has_name key row) eqn:Hrow.
  - apply has_name_spec in Hrow.
    replace (has_name key' (fst row, value)) with false
      by (symmetry; apply not_true_iff_false; rewrite has_name_spec; cbn; congruence).
    replace (has_name key' row) with false
      by (symmetry; apply not_true_iff_false; rewrite has_name_spec; congruence).
    exact IH.
  - destruct (has_name key' row); cbn; now rewrite IH.
Qed.

Lemma select_app key rows rows' :
  select_value key (rows ++ rows') = select_value key rows ++ select_value key rows'.
Proof. unfold select_value. now rewrite List.filter_app, fmap_app. Qed.

Lemma select_cons key (n v : string) rows :
  select_value key ((n, v) :: rows)
  = if String.eqb n key then v :: select_value key rows else select_value key rows.
Proof.
  unfold select_value. cbn. unfold has_name at 1. cbn.
  now destruct (String.eqb n key).
Qed.

Section Props.

Variable refused : Statement -> option Exn.

Local Abbreviation get := (Secrets.get refused).
Local Abbreviation set := (Secrets.set refused).
Local Abbreviation delete := (Secrets.delete refused).
Local Abbreviation all := (Secrets.all refused).

(** ** Statements the store executes, and statements it refuses *)

Lemma get_executed key w :
  refused (SelectValue key) = None ->
  get key w = (Return (head (select_value key (secrets w))), w).
Proof.
  intros Hok. unfold Secrets.get. rewrite Hok.
  now destruct (select_value key (secrets w)).
Qed.

Lemma set_executed key value w :
  refused (Upsert key value) = None ->
  set key value w = (Return tt, {| secrets := upsert key value (secrets w) |}).
Proof. intros Hok. unfold Secrets.set. now rewrite Hok. Qed.

Lemma delete_executed key w :
  refused (DeleteName key) = None ->
  delete key w = (Return tt, {| secrets := delete_name key (secrets w) |}).
Proof. intros Hok. unfold Secrets.delete. now rewrite Hok. Qed.

Lemma get_same_rows key rows rows' :
  select_value key rows = select_value key rows' ->
  fst (get key {| secrets := rows |}) = fst (get key {| secrets := rows' |}).
Proof.
  intros Hsel. unfold Secrets.get.
  destruct (refused (SelectValue key)); [reflexivity|].
  cbn [secrets]. rewrite Hsel. now destruct (select_value key rows').
Qed.

Lemma select_after_upsert key value rows :
  head (select_value key (upsert key value rows)) = Some value.
Proof.
  unfold upsert. destruct (existsb (has_name key) rows) eqn:Hex.
  - rewrite select_update.
    destruct (select_value key rows) eqn:Hsel; [|reflexivity].
    apply existsb_has_name in Hex. unfold names in Hex.
    apply list_elem_of_fmap in Hex as (row & Hrow & Hin).
    exfalso. unfold select_value in Hsel. apply fmap_nil_inv in Hsel.
    assert (In row (List.filter (has_name key) rows)) as Hf.
    { apply filter_In. split; [now apply list_elem_of_In|]. now apply has_name_spec. }
    rewrite Hsel in Hf. destruct Hf.
  - assert (key ∉ names rows) as Hnot.
    { intros Hin. apply existsb_has_name in Hin. congruence. }
    rewrite select_app, (select_absent key _ Hnot). cbn.
    unfold has_name. cbn. now rewrite String.eqb_refl.
Qed.

Lemma select_other_after_upsert key key' value rows :
  key' <> key ->
  select_value key' (upsert key value rows) = select_value key' rows.
Proof.
  intros Hne. unfold upsert. destruct (existsb (has_name key) rows).
  - now apply select_update_other.
  - rewrite select_app.
    replace (select_value key' [(key, value)]) with (@nil string).
    + apply app_nil_r.
    + unfold select_value. cbn. unfold has_name. cbn.
      destruct (String.eqb_spec key key'); [congruence|done].
Qed.

Lemma select_after_delete key rows :
  select_value key (delete_name key rows) = [].
Proof.
  unfold select_value, delete_name.
  induction rows as [|row rows IH]; [done|].
  cbn. destruct (has_name key row) eqn:Hrow; cbn; [exact IH|].
  now rewrite Hrow.
Qed.

Lemma select_other_after_delete key key' rows :
  key' <> key ->
  select_value key' (delete_name key rows) = select_value key' rows.
Proof.
  intros Hne. unfold select_value, delete_name.
  induction rows as [|row rows IH]; [done|].
  cbn. destruct (has_name key row) eqn:Hrow; cbn.
  - apply has_name_spec in Hrow.
    replace (has_name key' row) with false
      by (symmetry; apply not_true_iff_false; rewrite has_name_spec; congruence).
    exact IH.
  - destruct (has_name key' row); cbn; now rewrite IH.
Qed.

Lemma upsert_twice key value value' rows :
  upsert key value (upsert key value' rows) = upsert key value rows.
Proof.
  unfold upsert.
  destruct (existsb (has_name key) rows) eqn:Hex.
  - replace (existsb (has_name key)
               ((fun row => if has_name key row then (fst row, value') else row)
                  <$> rows)) with true.
    + rewrite <- list_fmap_compose. apply list_fmap_ext. intros _ row _. cbn.
      destruct (has_name key row) eqn:Hrow; [|now rewrite Hrow].
      assert (has_name key (fst row, value') = true) as ->; [|done].
      apply has_name_spec. now apply has_name_spec in Hrow.
    + symmetry. apply existsb_has_name. rewrite names_update.
      now apply existsb_has_name.
  - replace (existsb (has_name key) (rows ++ [(key, value')])) with true.
    + rewrite fmap_app. cbn. rewrite String.eqb_refl.
      f_equal. rewrite <- (list_fmap_id rows) at 2.
      apply list_fmap_ext. intros i row Hrow. cbn.
      destruct (has_name key row) eqn:Hkey; [|done].
      exfalso. apply not_true_iff_false in Hex. apply Hex.
      apply existsb_exists. exists row. split; [|done].
      apply list_elem_of_In. now apply list_elem_of_lookup_2 in Hrow.
    + symmetry. rewrite existsb_app. cbn.
      rewrite String.eqb_refl. now rewrite orb_true_r.
Qed.

Lemma dict_lookup rows (d : gmap string string) key :
  NoDup (names rows) ->
  fold_left (fun d row => <[fst row := snd row]> d) rows d !! key
  = match select_value key rows with
    | [] => d !! key
    | value :: _ => Some value
    end.
Proof.
  revert d. induction rows as [|[n v] rows IH]; intros d Huniq; [done|].
  cbn in Huniq. apply NoDup_cons in Huniq as [Hn Huniq].
  cbn [fold_left]. rewrite IH by done. rewrite select_cons. cbn [fst snd].
  destruct (String.eqb_spec n key) as [->|Hne].
  - rewrite (select_absent key rows Hn). apply lookup_insert_eq.
  - destruct (select_value key rows); [|done]. now apply lookup_insert_ne.
Qed.

(** X19. A [set] the store refuses raises the store's exception and writes
    nothing.  After a [set] the store executes, a [get] of the same key
    that the store executes returns the value set, whether the key was
    there or not, and the [get] of every other key ends as it did before
    the [set]. *)
Theorem set_then_get key value w :
  (forall e, refused (Upsert key value) = Some e ->
     set key value w = (Raise e, w))
  /\ (refused (Upsert key value) = None ->
      fst (set key value w) = Return tt
      /\ (refused (SelectValue key) = None ->
          fst (get key (snd (set key value w))) = Return (Some value))
      /\ (forall key', key' <> key ->
          fst (get key' (snd (set key value w))) = fst (get key' w))).
Proof.
  split.
  - intros e He. unfold Secrets.set. now rewrite He.
  - intros Hset. rewrite (set_executed _ _ _ Hset). cbn [fst snd].
    split; [reflexivity|]. split.
    + intros Hget. rewrite (get_executed _ _ Hget). cbn [fst secrets].
      now rewrite select_after_upsert.
    + intros key' Hne. destruct w as [rows]. apply get_same_rows.
      now apply select_other_after_upsert.
Qed.

(** X20. A [delete] the store refuses raises the store's exception and
    writes nothing.  After a [delete] the store executes, a [get] of the
    key that the store executes returns [None], and the [get] of every
    other key ends as it did before the [delete]. *)
Theorem delete_then_get key w :
  (forall e, refused (DeleteName key) = Some e ->
     delete key w = (Raise e, w))
  /\ (refused (DeleteName key) = None ->
      fst (delete key w) = Return tt
      /\ (refused (SelectValue key) = None ->
          fst (get key (snd (delete key w))) = Return None)
      /\ (forall key', key' <> key ->
          fst (get key' (snd (delete key w))) = fst (get key' w))).
Proof.
  split.
  - intros e He. unfold Secrets.delete. now rewrite He.
  - intros Hdel. rewrite (delete_executed _ _ Hdel). cbn [fst snd].
    split; [reflexivity|]. split.
    + intros Hget. rewrite (get_executed _ _ Hget). cbn [fst secrets].
      now rewrite select_after_delete.
    + intros key' Hne. destruct w as [rows]. apply get_same_rows.
      now apply select_other_after_delete.
Qed.

(** X21. [set] and [delete] keep the names of the table unique, executed or
    refused.  A [set] the store executes adds one row for a key that was
    not there and no row for one that was; after a [delete] the store
    executes the key is not among the names. *)
Theorem unique_names_kept key value w :
  unique_names w ->
  unique_names (snd (set key value w))
  /\ unique_names (snd (delete key w))
  /\ (refused (Upsert key value) = None ->
      (key ∈ names (secrets w) ->
       names (secrets (snd (set key value w))) = names (secrets w))
      /\ (key ∉ names (secrets w) ->
          names (secrets (snd (set key value w))) = names (secrets w) ++ [key]))
  /\ (refused (DeleteName key) = None ->
      key ∉ names (secrets (snd (delete key w)))).
Proof.
  unfold unique_names. intros Huniq.
  assert (key ∈ names (secrets w) ->
          names (upsert key value (secrets w)) = names (secrets w)) as Hin.
  { intros H. unfold upsert. rewrite (proj2 (existsb_has_name _ _) H).
    apply names_update. }
  assert (key ∉ names (secrets w) ->
          names (upsert key value (secrets w)) = names (secrets w) ++ [key]) as Hout.
  { intros H. unfold upsert.
    destruct (existsb (has_name key) (secrets w)) eqn:Hex.
    - apply existsb_has_name in Hex. contradiction.
    - unfold names. now rewrite fmap_app. }
  assert (forall rows, names (delete_name key rows)
                       = List.filter (fun n => negb (String.eqb n key)) (names rows))
    as Hdel.
  { induction rows as [|row rows IH]; [done|]. unfold delete_name, names in *. cbn.
    unfold has_name at 1. destruct (String.eqb (fst row) key); cbn; now rewrite IH. }
  repeat apply conj.
  - unfold Secrets.set. destruct (refused (Upsert key value)); [exact Huniq|].
    cbn [snd secrets].
    destruct (decide (key ∈ names (secrets w))) as [H|H].
    + now rewrite Hin.
    + rewrite Hout by done. apply NoDup_app. repeat split; [done| |apply NoDup_singleton].
      intros n Hn [->|[]%elem_of_nil]%elem_of_cons. contradiction.
  - unfold Secrets.delete. destruct (refused (DeleteName key)); [exact Huniq|].
    cbn [snd secrets].
    rewrite Hdel. apply NoDup_ListNoDup, List.NoDup_filter. now apply NoDup_ListNoDup.
  - intros Hset. rewrite (set_executed _ _ _ Hset). cbn [snd secrets]. now split.
  - intros Hok. rewrite (delete_executed _ _ Hok). cbn [snd secrets].
    rewrite Hdel. intros H%list_elem_of_In%filter_In. destruct H as [_ H].
    now rewrite String.eqb_refl in H.
Qed.

(** X22. With unique names, an [all] and a [get] that the store executes
    agree: the value [get] returns for a key is the entry of the dictionary
    [all] returns, [None] for a key that has no entry. *)
Theorem all_agrees_with_get key w :
  unique_names w ->
  refused (SelectValue key) = None ->
  refused SelectAll = None ->
  fst (get key w) = (fun d : gmap string string => d !! key) <$> fst (all w).
Proof.
  intros Huniq Hget Hall. rewrite (get_executed _ _ Hget).
  unfold Secrets.all, dict_of_rows. rewrite Hall. cbn [fst fmap outcome_fmap].
  rewrite (dict_lookup _ ∅ key Huniq).
  now destruct (select_value key (secrets w)).
Qed.

(** X23. The second [set] of a key wins when the store executes it: the
    table is then the one that [set] alone gives, whether the first [set]
    was executed or refused.  A second [set] the store refuses leaves the
    table as the first left it. *)
Theorem second_set_wins key value value' w :
  (refused (Upsert key value) = None ->
   snd (set key value (snd (set key value' w))) = snd (set key value w))
  /\ (forall e, refused (Upsert key value) = Some e ->
      set key value (snd (set key value' w))
      = (Raise e, snd (set key value' w))).
Proof.
  split.
  - intros Hsecond. rewrite !(set_executed _ _ _ Hsecond). cbn [snd]. f_equal.
    unfold Secrets.set. destruct (refused (Upsert key value')); [reflexivity|].
    cbn [snd secrets]. apply upsert_twice.
  - intros e He. unfold Secrets.set at 1. now rewrite He.
Qed.

End Props.

(** ** The theorems at a sample table *)

Import MoreSamples.

Example set_with_nul_is_refused :
  Secrets.set refuse_nul nul_key "v" vault = (Raise nul_error, vault)
  /\ Secrets.set refuse_nul "k" nul_key vault = (Raise nul_error, vault)
  /\ Secrets.get refuse_nul nul_key vault = (Raise nul_error, vault)
  /\ Secrets.delete refuse_nul nul_key vault = (Raise nul_error, vault).
Proof. repeat split. Qed.

Lemma set_then_get_witness :
  fst (Secrets.get refuse_nul "ftrack_api_key"
         (snd (Secrets.set refuse_nul "ftrack_api_key" "n3w" vault)))
  = Return (Some "n3w").
Proof.
  apply (proj2 (set_then_get refuse_nul "ftrack_api_key" "n3w" vault));
    reflexivity.
Defined.

Lemma delete_then_get_witness :
  fst (Secrets.get refuse_nul "ftrack_api_key"
         (snd (Secrets.delete refuse_nul "ftrack_api_key" vault)))
  = Return None.
Proof.
  apply (proj2 (delete_then_get refuse_nul "ftrack_api_key" vault));
    reflexivity.
Defined.

Lemma unique_names_kept_witness :
  unique_names (snd (Secrets.set refuse_nul "ftrack_api_key" "n3w" vault))
  /\ unique_names (snd (Secrets.delete refuse_nul "ftrack_api_key" vault)).
Proof.
  destruct (unique_names_kept refuse_nul "ftrack_api_key" "n3w" vault)
    as (Hset & Hdel & _).
  - apply (bool_decide_unpack _). vm_compute. exact I.
  - exact (conj Hset Hdel).
Defined.

Lemma all_agrees_with_get_witness :
  fst (Secrets.get refuse_nul "smtp_password" vault)
  = (fun d : gmap string string => d !! "smtp_password")
      <$> fst (Secrets.all refuse_nul vault).
Proof.
  apply all_agrees_with_get; [|reflexivity|reflexivity].
  apply (bool_decide_unpack _). vm_compute. exact I.
Defined.

Lemma second_set_wins_witness :
  snd (Secrets.set refuse_nul "ftrack_api_key" "n3w"
         (snd (Secrets.set refuse_nul "ftrack_api_key" "0ld" vault)))
  = snd (Secrets.set refuse_nul "ftrack_api_key" "n3w" vault).
Proof.
  apply (proj1 (second_set_wins refuse_nul "ftrack_api_key" "n3w" "0ld" vault)).
  reflexivity.
Defined.

End SecretsProps.

(** * Properties of the GraphQL context *)

Module GraphqlProps.

Import Graphql.

Section Props.

Context {Attrib UserAttribType : Type}.
Variable UserAttribType_init : Attrib -> outcome UserAttribType.

(** X24. On the context that [graphql_get_context] builds for a user, [me]
    finds the user: it raises neither [KeyError] nor [AttributeError] and
    returns the node with the user's name and the attributes built from the
    user's (or what building them raises).  That context has seven keys.
    On a context without the key [user], [me] raises [KeyError]. *)
Theorem me_finds_context_user (user : UserEntity Attrib) :
  me UserAttribType_init (graphql_get_context user)
  = (attrib ← UserAttribType_init (user_attrib user);
     Return {| node_name := user_name user; node_attrib := attrib |})
  /\ dom (graphql_get_context user)
     = ({[ "folder_loader"; "subset_loader"; "version_loader";
           "latest_version_loader"; "user_loader"; "folder_from_record";
           "user" ]} : gset string)
  /\ (forall context : gmap string (ContextValue Attrib),
        context !! "user" = None ->
        me UserAttribType_init context = Raise (Exception "KeyError: 'user'")).
Proof.
  repeat apply conj.
  - unfold me, graphql_get_context. now rewrite lookup_insert_eq.
  - unfold graphql_get_context. rewrite !dom_insert_L, dom_empty_L. set_solver.
  - intros context Hnone. unfold me. now rewrite Hnone.
Qed.

End Props.

Import MoreSamples.

Lemma me_finds_context_user_witness :
  me attrib_as_given (delete "user" (graphql_get_context artist_entity))
  = Raise (Exception "KeyError: 'user'").
Proof.
  apply (proj2 (proj2 (me_finds_context_user attrib_as_given artist_entity))).
  apply lookup_delete_eq.
Defined.

End GraphqlProps.
